(** * jagain: Option and Result containers for Go

    A shallow embedding of the package's two generic containers
    ([Option[T]] and [Result[T]]) and of the part of the Go runtime they
    rely on: typed heap cells reached through pointers, panics, calls of
    function values, [fmt]'s [%v] verb and [encoding/json]. *)

From Stdlib Require Import List Arith Lia Bool ZArith DecimalString.
From Stdlib.Strings Require Import String Ascii Byte.
Import ListNotations.
Local Open Scope string_scope.

(** ** The Go runtime *)
Module Go.

(** [errors.New(text)] builds an [*errors.errorString]; it is represented
    by the text it carries. *)
Record errorString : Type := errors_New { text : string }.

(** The [error] interface: any type with an [Error() string] method. *)
Class error_iface (E : Type) : Type := Error : E -> string.

#[global] Instance errorString_error : error_iface errorString := text.

(** A value of interface type [error]: the nil interface, or a value of
    some type [E] implementing it. *)
Inductive error (E : Type) : Type :=
| error_nil : error E
| error_val (e : E) : error E.
Arguments error_nil {E}.
Arguments error_val {E} e.

(** A [*T]: nil, or the address of a cell of the heap of [T]s. *)
Inductive ptr (T : Type) : Type :=
| nil_ptr : ptr T
| addr (l : nat) : ptr T.
Arguments nil_ptr {T}.
Arguments addr {T} l.

(** The value handed to [panic]. *)
Inductive any : Type :=
| AnyString (msg : string)
| AnyError (e : errorString)
| RuntimeError (msg : string).

Definition nil_dereference : any :=
  RuntimeError "invalid memory address or nil pointer dereference".

(** A store [St] holds the heap cells of type [T]. *)
Class Mem (St T : Type) : Type := {
  cells : St -> list T;
  set_cells : list T -> St -> St;
  cells_set_cells : forall h m, cells (set_cells h m) = h
}.

(** The world a call runs in: the store, and a ghost count of the calls
    made to function values passed in by the caller. *)
Record World (St : Type) : Type := mkWorld { mem : St; calls : nat }.
Arguments mkWorld {St} mem calls.
Arguments mem {St} w.
Arguments calls {St} w.

Inductive Outcome (A : Type) : Type :=
| Returned (a : A)
| Panicked (p : any).
Arguments Returned {A} a.
Arguments Panicked {A} p.

(** A Go computation: it returns or panics, and leaves a world behind. *)
Definition M (St A : Type) : Type := World St -> Outcome A * World St.

Definition ret {St A : Type} (a : A) : M St A := fun w => (Returned a, w).

Definition bind {St A B : Type} (c : M St A) (k : A -> M St B) : M St B :=
  fun w =>
    match c w with
    | (Returned a, w') => k a w'
    | (Panicked p, w') => (Panicked p, w')
    end.

Definition panic {St A : Type} (p : any) : M St A := fun w => (Panicked p, w).

(** [&v] of a parameter or local that escapes: a fresh cell holding [v]. *)
Definition new {St T : Type} `{Mem St T} (v : T) : M St (ptr T) :=
  fun w =>
    let h := cells (mem w) in
    (Returned (addr (List.length h)),
     mkWorld (set_cells (h ++ [v]) (mem w)) (calls w)).

(** [*p]. *)
Definition load {St T : Type} `{Mem St T} (p : ptr T) : M St T :=
  fun w =>
    match p with
    | nil_ptr => (Panicked nil_dereference, w)
    | addr l =>
        match nth_error (cells (mem w)) l with
        | Some v => (Returned v, w)
        | None => (Panicked nil_dereference, w)
        end
    end.

Fixpoint update {T : Type} (h : list T) (l : nat) (v : T) : list T :=
  match h, l with
  | [], _ => []
  | _ :: h', O => v :: h'
  | x :: h', S l' => x :: update h' l' v
  end.

(** [*p = v]. *)
Definition store {St T : Type} `{Mem St T} (p : ptr T) (v : T) : M St unit :=
  fun w =>
    match p with
    | nil_ptr => (Panicked nil_dereference, w)
    | addr l =>
        match nth_error (cells (mem w)) l with
        | Some _ =>
            (Returned tt,
             mkWorld (set_cells (update (cells (mem w)) l v) (mem w)) (calls w))
        | None => (Panicked nil_dereference, w)
        end
    end.

(** [f(a)] for a function value [f] received from the caller. *)
Definition invoke {St A B : Type} (f : A -> M St B) (a : A) : M St B :=
  fun w => f a (mkWorld (mem w) (S (calls w))).

(** The zero value of a type, as in [var x T]. *)
Class ZeroValue (T : Type) : Type := zero_value : T.

(** [fmt]'s rendering of a value under the [%v] verb. *)
Class Fmt (T : Type) : Type := fmt_v : T -> string.

#[global] Instance error_Fmt {E : Type} `{error_iface E} : Fmt (error E) :=
  fun e =>
    match e with
    | error_nil => "<nil>"
    | error_val x => Error x
    end.

(** [encoding/json] at type [T]: [json.Marshal(v)] of a value,
    [json.Marshal(p)] of a non-nil [p] of type [*T] whose cell holds the
    value, and [json.Unmarshal(data, &x)], from the value [x] holds to
    the value it holds afterwards. Through a pointer the encoder also
    finds the [MarshalJSON] and [MarshalText] methods that have a pointer
    receiver, which it does not on a value, so the first two differ for
    types that have such methods. *)
Class JSON (E T : Type) : Type := {
  json_Marshal : T -> list byte * error E;
  json_Marshal_ref : T -> list byte * error E;
  json_Unmarshal : list byte -> T -> T * error E
}.

(** [json.Marshal] of a [*T]: a nil pointer encodes as null, any other
    pointer as [encoding/json] encodes through it. *)
Definition json_Marshal_ptr {St E T : Type} `{Mem St T} `{JSON E T}
    (p : ptr T) : M St (list byte * error E) :=
  fun w =>
    match p with
    | nil_ptr => (Returned (list_byte_of_string "null", error_nil), w)
    | addr _ => bind (load p) (fun v => ret (json_Marshal_ref v)) w
    end.

End Go.

Export Go.

Declare Scope go_scope.
Delimit Scope go_scope with go.
Notation "x <- c ;; k" := (bind c (fun x => k))
  (at level 61, c at next level, right associativity) : go_scope.
Local Open Scope go_scope.

(** ** Package jagain *)
Module jagain.

(** [ErrNoValue] is the value [Option.Unwrap] panics with. *)
Definition ErrNoValue : errorString := errors_New "option contains no value".

Module Result.
Record t (E T : Type) : Type := mk { value : ptr T; err : error E; valid : bool }.
Arguments mk {E T} value err valid.
Arguments value {E T} _.
Arguments err {E T} _.
Arguments valid {E T} _.
End Result.

Module Option.
Record t (T : Type) : Type := mk { value : ptr T; valid : bool }.
Arguments mk {T} value valid.
Arguments value {T} _.
Arguments valid {T} _.
End Option.

(** [Result[T]], over the error values of type [E]. *)
Definition Result (E T : Type) : Type := Result.t E T.

(** [Option[T]]. *)
Definition Option (T : Type) : Type := Option.t T.

(** [var o Option[T]] and [var r Result[T]]: every field zero. *)
#[global] Instance Option_zero {T : Type} : ZeroValue (Option T) :=
  Option.mk nil_ptr false.

#[global] Instance Result_zero {E T : Type} : ZeroValue (Result E T) :=
  Result.mk nil_ptr error_nil false.

Section Containers.
Context {St E T : Type} `{Mem St T} `{error_iface E}.

(** *** Constructors *)

Definition Ok (value : T) : M St (Result E T) :=
  p <- new value ;;
  ret (Result.mk p error_nil true).

Definition Err (err : error E) : Result E T :=
  Result.mk nil_ptr err false.

Definition Some (value : T) : M St (Option T) :=
  p <- new value ;;
  ret (Option.mk p true).

Definition None : Option T :=
  Option.mk nil_ptr false.

(** *** Result *)

Definition Result_IsOk (r : Result E T) : bool := Result.valid r.

Definition Result_IsErr (r : Result E T) : bool := negb (Result.valid r).

Definition Result_Unwrap (r : Result E T) : M St T :=
  if negb (Result.valid r)
  then panic (AnyString ("called unwrap on an error result: " ++ fmt_v (Result.err r)))
  else load (Result.value r).

Definition Result_UnwrapOr (r : Result E T) (defaultValue : T) : M St T :=
  if negb (Result.valid r)
  then ret defaultValue
  else load (Result.value r).

Definition Result_UnwrapOrElse (r : Result E T) (f : error E -> M St T) : M St T :=
  if negb (Result.valid r)
  then invoke f (Result.err r)
  else load (Result.value r).

Definition Result_UnwrapErr (r : Result E T) : M St (error E) :=
  if Result.valid r
  then panic (AnyString "called unwrap_err on an ok result")
  else ret (Result.err r).

Definition Result_Map (r : Result E T) (f : T -> M St T) : M St (Result E T) :=
  if negb (Result.valid r)
  then ret r
  else v <- load (Result.value r) ;;
       y <- invoke f v ;;
       Ok y.

Definition Result_MapErr (r : Result E T) (f : error E -> M St (error E))
    : M St (Result E T) :=
  if Result.valid r
  then ret r
  else e <- invoke f (Result.err r) ;;
       ret (Err e).

Definition Result_FlatMap (r : Result E T) (f : T -> M St (Result E T))
    : M St (Result E T) :=
  if negb (Result.valid r)
  then ret r
  else v <- load (Result.value r) ;;
       invoke f v.

Definition Result_Match (r : Result E T) (ok : T -> M St T) (err : error E -> M St T)
    : M St T :=
  if Result.valid r
  then v <- load (Result.value r) ;;
       invoke ok v
  else invoke err (Result.err r).

Definition Result_ToOption (r : Result E T) : M St (Option T) :=
  if negb (Result.valid r)
  then ret None
  else v <- load (Result.value r) ;;
       Some v.

Definition Result_String `{Fmt T} (r : Result E T) : M St string :=
  if negb (Result.valid r)
  then ret ("Err(" ++ fmt_v (Result.err r) ++ ")")
  else v <- load (Result.value r) ;;
       ret ("Ok(" ++ fmt_v v ++ ")").

(** *** Option *)

Definition FromPtr (p : ptr T) : M St (Option T) :=
  match p with
  | nil_ptr => ret None
  | addr _ => v <- load p ;;
              Some v
  end.

Definition Option_ToPtr (o : Option T) : M St (ptr T) :=
  if negb (Option.valid o)
  then ret nil_ptr
  else v <- load (Option.value o) ;;
       new v.

Definition Option_IsSome (o : Option T) : bool := Option.valid o.

Definition Option_IsNone (o : Option T) : bool := negb (Option.valid o).

Definition Option_Unwrap (o : Option T) : M St T :=
  if negb (Option.valid o)
  then panic (AnyError ErrNoValue)
  else load (Option.value o).

Definition Option_UnwrapOr (o : Option T) (defaultValue : T) : M St T :=
  if negb (Option.valid o)
  then ret defaultValue
  else load (Option.value o).

Definition Option_UnwrapOrElse (o : Option T) (f : unit -> M St T) : M St T :=
  if negb (Option.valid o)
  then invoke f tt
  else load (Option.value o).

Definition Option_Map (o : Option T) (f : T -> M St T) : M St (Option T) :=
  if negb (Option.valid o)
  then ret o
  else v <- load (Option.value o) ;;
       y <- invoke f v ;;
       Some y.

Definition Option_FlatMap (o : Option T) (f : T -> M St (Option T)) : M St (Option T) :=
  if negb (Option.valid o)
  then ret o
  else v <- load (Option.value o) ;;
       invoke f v.

Definition Option_Match (o : Option T) (some : T -> M St T) (none : unit -> M St T)
    : M St T :=
  if Option.valid o
  then v <- load (Option.value o) ;;
       invoke some v
  else invoke none tt.

Definition Option_ToResult (o : Option T) (err : error E) : M St (Result E T) :=
  if negb (Option.valid o)
  then ret (Err err)
  else v <- load (Option.value o) ;;
       Ok v.

Definition Option_MarshalJSON `{JSON E T} (o : Option T) : M St (list byte * error E) :=
  if negb (Option.valid o)
  then ret (list_byte_of_string "null", error_nil)
  else json_Marshal_ptr (Option.value o).

(** The receiver is a [*Option[T]]: the Option it points to is taken as
    an argument and the one it points to afterwards is returned, next to
    the [error] result. *)
Definition Option_UnmarshalJSON `{JSON E T} `{ZeroValue T}
    (o : Option T) (data : list byte) : M St (Option T * error E) :=
  if String.eqb (string_of_list_byte data) "null"
  then ret (None, error_nil)
  else let (value, err) := json_Unmarshal data zero_value in
       match err with
       | error_val _ => ret (o, err)
       | error_nil => o' <- Some value ;;
                      ret (o', error_nil)
       end.

Definition Option_String `{Fmt T} (o : Option T) : M St string :=
  if negb (Option.valid o)
  then ret "None"
  else v <- load (Option.value o) ;;
       ret ("Some(" ++ fmt_v v ++ ")").

End Containers.

(** *** The type-changing free functions *)
Section TypeChanging.
Context {St E T U : Type} `{Mem St T} `{Mem St U} `{error_iface E}.

Definition MapTo (r : Result E T) (f : T -> M St U) : M St (Result E U) :=
  if negb (Result.valid r)
  then ret (Err (Result.err r))
  else v <- load (Result.value r) ;;
       y <- invoke f v ;;
       Ok y.

Definition FlatMapTo (r : Result E T) (f : T -> M St (Result E U)) : M St (Result E U) :=
  if negb (Result.valid r)
  then ret (Err (Result.err r))
  else v <- load (Result.value r) ;;
       invoke f v.

Definition MatchTo (r : Result E T) (ok : T -> M St U) (err : error E -> M St U) : M St U :=
  if Result.valid r
  then v <- load (Result.value r) ;;
       invoke ok v
  else invoke err (Result.err r).

End TypeChanging.

End jagain.

(** ** Concrete stores *)

(** A store with cells of one type only. *)
#[global] Instance heap_Mem (T : Type) : Mem (list T) T := {|
  cells := fun h => h;
  set_cells := fun h _ => h;
  cells_set_cells := fun _ _ => eq_refl
|}.

(** A store with cells of two types, reached on the left and on the right. *)
Definition left_Mem (T U : Type) : Mem (list T * list U) T := {|
  cells := fun m => fst m;
  set_cells := fun h m => (h, snd m);
  cells_set_cells := fun _ _ => eq_refl
|}.

Definition right_Mem (T U : Type) : Mem (list T * list U) U := {|
  cells := fun m => snd m;
  set_cells := fun h m => (fst m, h);
  cells_set_cells := fun _ _ => eq_refl
|}.

(** The world a program starts in: nothing allocated, no call made. *)
Definition start {St : Type} (m : St) : World St := mkWorld m 0.

(** [p == nil]. *)
Definition is_nil {T : Type} (p : ptr T) : bool :=
  match p with
  | nil_ptr => true
  | addr _ => false
  end.

(** ** A caller's type with its own JSON methods

    A three-valued flag, [Unknown] being its zero value. [Unknown] is
    written as null, and reading null leaves the target as it is, the
    convention [encoding/json] asks of [UnmarshalJSON] methods. Its
    [MarshalJSON] has a value receiver, so it is written the same way
    through a pointer. *)
Inductive Tri : Type := Unknown | Yes | No.

#[global] Instance Tri_zero : ZeroValue Tri := Unknown.

Definition Tri_MarshalJSON (t : Tri) : list byte * error errorString :=
  (list_byte_of_string
     match t with
     | Unknown => "null"
     | Yes => "true"
     | No => "false"
     end,
   error_nil).

Definition Tri_UnmarshalJSON (data : list byte) (x : Tri) : Tri * error errorString :=
  let s := string_of_list_byte data in
  if String.eqb s "null" then (x, error_nil)
  else if String.eqb s "true" then (Yes, error_nil)
  else if String.eqb s "false" then (No, error_nil)
  else (x, error_val (errors_New "cannot unmarshal into Tri")).

#[global] Instance Tri_JSON : JSON errorString Tri := {|
  json_Marshal := Tri_MarshalJSON;
  json_Marshal_ref := Tri_MarshalJSON;
  json_Unmarshal := Tri_UnmarshalJSON
|}.

(** A failure carries an error that is not nil. *)
Definition carries_error {E T : Type} (r : jagain.Result E T) : Prop :=
  jagain.Result_IsErr r = true -> jagain.Result.err r <> error_nil.

(** ** Results a caller can build

    The Results obtained from the constructors and combinators when every
    error the caller supplies (to [Err] and [ToResult], or as the result
    of the function given to [MapErr]) is a non-nil one. The functions
    given to [FlatMap] and [FlatMapTo] return Results built the same way. *)
Section Reachable.
Context {St E : Type}.

Inductive reachable : forall T : Type, jagain.Result E T -> Prop :=
| reach_Ok (T : Type) (HT : Mem St T) (v : T) (w w' : World St) r :
    jagain.Ok v w = (Returned r, w') ->
    reachable T r
| reach_Err (T : Type) (x : E) :
    reachable T (jagain.Err (error_val x))
| reach_ToResult (T : Type) (HT : Mem St T) (o : jagain.Option T) (x : E)
    (w w' : World St) r :
    jagain.Option_ToResult o (error_val x) w = (Returned r, w') ->
    reachable T r
| reach_Map (T : Type) (HT : Mem St T) r (f : T -> M St T) (w w' : World St) r' :
    reachable T r ->
    jagain.Result_Map r f w = (Returned r', w') ->
    reachable T r'
| reach_MapTo (T U : Type) (HT : Mem St T) (HU : Mem St U) r (f : T -> M St U)
    (w w' : World St) r' :
    reachable T r ->
    jagain.MapTo r f w = (Returned r', w') ->
    reachable U r'
| reach_MapErr (T : Type) r (f : error E -> M St (error E)) (w w' : World St) r' :
    reachable T r ->
    (forall e w0 e' w1, f e w0 = (Returned e', w1) -> e' <> error_nil) ->
    jagain.Result_MapErr r f w = (Returned r', w') ->
    reachable T r'
| reach_FlatMap (T : Type) (HT : Mem St T) r (f : T -> M St (jagain.Result E T))
    (w w' : World St) r' :
    reachable T r ->
    (forall v w0 r0 w1, f v w0 = (Returned r0, w1) -> reachable T r0) ->
    jagain.Result_FlatMap r f w = (Returned r', w') ->
    reachable T r'
| reach_FlatMapTo (T U : Type) (HT : Mem St T) r (f : T -> M St (jagain.Result E U))
    (w w' : World St) r' :
    reachable T r ->
    (forall v w0 r0 w1, f v w0 = (Returned r0, w1) -> reachable U r0) ->
    jagain.FlatMapTo r f w = (Returned r', w') ->
    reachable U r'.

End Reachable.

Arguments reachable St {E} T _.

(** ** The user records of the package's examples *)

(** [%v] of a string is the string. *)
#[global] Instance string_Fmt : Fmt string := fun x => x.

Record User : Type := mkUser { ID : nat; Email : jagain.Option string }.

(** The chain of [GetUserEmailByStringID], from the user on. *)
Definition user_email {St : Type} `{Mem St User} `{Mem St string}
    (u : jagain.Result errorString User) : M St (jagain.Result errorString string) :=
  jagain.FlatMapTo u (fun user =>
    jagain.Option_ToResult (Email user)
      (error_val (errors_New "user has no email"))).

(** ** Chains of calls, and what a call leaves in the store *)
Section Chains.
Context {St E T : Type} `{Mem St T}.

(** [r.FlatMap(f1).FlatMap(f2)...], through the functions of [fs] in turn. *)
Fixpoint Result_chain (r : jagain.Result E T)
    (fs : list (T -> M St (jagain.Result E T))) : M St (jagain.Result E T) :=
  match fs with
  | [] => ret r
  | f :: fs' => r' <- jagain.Result_FlatMap r f ;; Result_chain r' fs'
  end.

(** [o.FlatMap(f1).FlatMap(f2)...]. *)
Fixpoint Option_chain (o : jagain.Option T)
    (fs : list (T -> M St (jagain.Option T))) : M St (jagain.Option T) :=
  match fs with
  | [] => ret o
  | f :: fs' => o' <- jagain.Option_FlatMap o f ;; Option_chain o' fs'
  end.

(** A computation keeps the cells of type [T] when every pointer reads
    afterwards what it read before, in whatever world it starts. *)
Definition keeps_cells {A : Type} (c : M St A) : Prop :=
  forall (w : World St) (p : ptr T) (x : T),
    fst (load p w) = Returned x -> fst (load p (snd (c w))) = Returned x.

End Chains.

(** ** The standard library the examples use *)

(** Go's [int]. The examples compare and print it, and do no arithmetic
    on it. *)
Definition int : Type := Z.

(** [%d] of an [int]. *)
Definition fmt_d (n : int) : string := NilZero.string_of_int (Z.to_int n).

(** The errors the examples build, over the errors [X] that other
    packages hand them: a text from [errors.New] or from [fmt.Errorf]
    without [%w], and a text around a wrapped error from [fmt.Errorf]
    with [%w]. *)
Inductive goerr (X : Type) : Type :=
| errorText (text : string)
| wrapError (msg : string) (err : goerr X)
| extError (x : X).
Arguments errorText {X} text.
Arguments wrapError {X} msg err.
Arguments extError {X} x.

#[global] Instance goerr_error {X : Type} `{error_iface X} : error_iface (goerr X) :=
  fun e =>
    match e with
    | errorText text => text
    | wrapError msg _ => msg
    | extError x => Error x
    end.

(** [fmt.Errorf(prefix + "%w", err)] for a non-nil [err]. *)
Definition fmt_Errorf_w {X : Type} `{error_iface X} (prefix : string)
    (err : goerr X) : goerr X :=
  wrapError (prefix ++ Error err) err.

(** [errors.Unwrap]. *)
Definition errors_Unwrap {X : Type} (e : error (goerr X)) : error (goerr X) :=
  match e with
  | error_val (wrapError _ err) => error_val err
  | _ => error_nil
  end.

(** A [map[int]V], the latest entry of a key first; [m[k]] with its
    second result is [map_get], and [m[k] = v] is [map_set]. *)
Definition gomap (V : Type) : Type := list (int * V).

Fixpoint map_get {V : Type} (m : gomap V) (k : int) : option V :=
  match m with
  | [] => None
  | (k', v) :: m' => if Z.eqb k' k then Some v else map_get m' k
  end.

Definition map_set {V : Type} (m : gomap V) (k : int) (v : V) : gomap V :=
  (k, v) :: m.

(** [strconv.Atoi], with the errors [X] it returns. *)
Class Strconv (X : Type) : Type := strconv_Atoi : string -> int * error X.

(** Two types of cells of one store are apart: allocating or storing at
    one leaves the cells of the other as they are. *)
Class Apart (St T U : Type) `{Mem St T} `{Mem St U} : Prop := {
  cells_left : forall (h : list U) (m : St),
    cells (T:=T) (set_cells (T:=U) h m) = cells (T:=T) m;
  cells_right : forall (h : list T) (m : St),
    cells (T:=U) (set_cells (T:=T) h m) = cells (T:=U) m
}.

(** ** The comparison of the two styles of error handling *)
Module comparison.

Record UserRecord : Type := mkUserRecord {
  ID : int;
  Username : string;
  Email : string
}.

Record MockDatabase : Type := mkMockDatabase {
  users : gomap (ptr UserRecord)
}.

Section Comparison.
Context {St X : Type} `{Mem St UserRecord} `{Mem St string} `{error_iface X}.

Definition NewMockDatabase : M St MockDatabase :=
  alice <- new (mkUserRecord 1%Z "alice" "alice@example.com") ;;
  bob <- new (mkUserRecord 2%Z "bob" EmptyString) ;;
  ret (mkMockDatabase [(1%Z, alice); (2%Z, bob)]).

Definition GetUserByID (db : MockDatabase) (id : int)
    : ptr UserRecord * error (goerr X) :=
  match map_get (users db) id with
  | None => (nil_ptr, error_val (errorText ("user with ID " ++ fmt_d id ++ " not found")))
  | Some user => (user, error_nil)
  end.

Definition GetUserByIDResult (db : MockDatabase) (id : int)
    : M St (jagain.Result (goerr X) UserRecord) :=
  match map_get (users db) id with
  | None =>
      ret (jagain.Err (error_val (errorText ("user with ID " ++ fmt_d id ++ " not found"))))
  | Some user =>
      u <- load user ;;
      jagain.Ok u
  end.

Definition GetUserEmailByID (db : MockDatabase) (id : int)
    : M St (string * error (goerr X)) :=
  let (user, err) := GetUserByID db id in
  match err with
  | error_val e => ret (EmptyString, error_val (fmt_Errorf_w "failed to get user: " e))
  | error_nil =>
      u <- load user ;;
      if String.eqb (Email u) EmptyString
      then ret (EmptyString, error_val (errorText "user has no email"))
      else u' <- load user ;;
           ret (Email u', error_nil)
  end.

Definition GetUserEmailByIDSafe (db : MockDatabase) (id : int)
    : M St (string * error (goerr X)) :=
  let (user, err) := GetUserByID db id in
  match err with
  | error_val e => ret (EmptyString, error_val (fmt_Errorf_w "failed to get user: " e))
  | error_nil =>
      if is_nil user
      then ret (EmptyString, error_val (errorText "user is nil"))
      else u <- load user ;;
           if String.eqb (Email u) EmptyString
           then ret (EmptyString, error_val (errorText "user has no email"))
           else u' <- load user ;;
                ret (Email u', error_nil)
  end.

Definition GetUserEmailByIDResult (db : MockDatabase) (id : int)
    : M St (jagain.Result (goerr X) string) :=
  r <- GetUserByIDResult db id ;;
  jagain.FlatMapTo r (fun user =>
    if String.eqb (Email user) EmptyString
    then ret (jagain.Err (error_val (errorText "user has no email")))
    else jagain.Ok (Email user)).

End Comparison.

End comparison.

(** ** The user model of the examples and its transfer object *)
Module example_test.

Module Address.
Record t : Type := mk {
  Street : string;
  City : string;
  State : string;
  ZipCode : string;
  CountryCode : jagain.Option string
}.
End Address.

(** A [[]Address] is taken by value: the examples copy the slice and
    never write through it. *)
Module User.
Record t : Type := mk {
  ID : int;
  Name : string;
  Email : jagain.Option string;
  Age : jagain.Option int;
  Addresses : list Address.t
}.
End User.

Module UserDTO.
Record t : Type := mk {
  ID : int;
  Name : string;
  Email : ptr string;
  Age : ptr int;
  Addresses : list Address.t
}.
End UserDTO.

Definition Address : Type := Address.t.
Definition User : Type := User.t.
Definition UserDTO : Type := UserDTO.t.

Section DTO.
Context {St : Type} `{Mem St string} `{Mem St int}.

Definition User_ToDTO (u : User) : M St UserDTO :=
  email <- jagain.Option_ToPtr (User.Email u) ;;
  age <- jagain.Option_ToPtr (User.Age u) ;;
  ret (UserDTO.mk (User.ID u) (User.Name u) email age (User.Addresses u)).

Definition UserFromDTO (dto : UserDTO) : M St User :=
  email <- jagain.FromPtr (UserDTO.Email dto) ;;
  age <- jagain.FromPtr (UserDTO.Age dto) ;;
  ret (User.mk (UserDTO.ID dto) (UserDTO.Name dto) email age (UserDTO.Addresses dto)).

End DTO.

Definition isValidEmail (email : string) : bool :=
  negb (String.eqb email EmptyString).

End example_test.

(** ** The repository and the service of the Result example *)
Module result_example.

Record UserRepository : Type := mkUserRepository {
  users : gomap example_test.User
}.

Record UserService : Type := mkUserService {
  repo : UserRepository
}.

Section Service.
Context {St X : Type} `{Mem St string} `{Mem St int} `{Mem St example_test.User}
  `{error_iface X} `{Strconv X}.

Definition NewUserRepository : M St UserRepository :=
  email1 <- jagain.Some "john@example.com" ;;
  age1 <- jagain.Some 30%Z ;;
  email2 <- jagain.Some "jane@example.com" ;;
  ret (mkUserRepository
         [(1%Z, example_test.User.mk 1%Z "John Doe" email1 age1 []);
          (2%Z, example_test.User.mk 2%Z "Jane Smith" email2 jagain.None [])]).

Definition FindUser (r : UserRepository) (id : int)
    : M St (jagain.Result (goerr X) example_test.User) :=
  match map_get (users r) id with
  | Some user => jagain.Ok user
  | None =>
      ret (jagain.Err (error_val (errorText ("user with ID " ++ fmt_d id ++ " not found"))))
  end.

Definition ParseUserID (id : string) : M St (jagain.Result (goerr X) int) :=
  let (userID, err) := strconv_Atoi id in
  match err with
  | error_val e =>
      ret (jagain.Err (error_val (fmt_Errorf_w "invalid user ID format: " (extError e))))
  | error_nil =>
      if Z.leb userID 0
      then ret (jagain.Err (error_val (errorText "user ID must be positive")))
      else jagain.Ok userID
  end.

Definition NewUserService (repo : UserRepository) : UserService :=
  mkUserService repo.

Definition GetUserEmailByStringID (s : UserService) (id : string)
    : M St (jagain.Result (goerr X) string) :=
  idResult <- ParseUserID id ;;
  userResult <- jagain.FlatMapTo idResult (fun userID => FindUser (repo s) userID) ;;
  jagain.FlatMapTo userResult (fun user =>
    jagain.Option_ToResult (example_test.User.Email user)
      (error_val (errorText "user has no email"))).

End Service.

End result_example.

(** ** A store for the examples: strings, ints and users *)
Record ExampleStore : Type := mkExampleStore {
  strings : list string;
  ints : list int;
  user_cells : list example_test.User
}.

Definition empty_store : ExampleStore := mkExampleStore [] [] [].

#[global] Instance ExampleStore_string : Mem ExampleStore string := {|
  cells := strings;
  set_cells := fun h m => mkExampleStore h (ints m) (user_cells m);
  cells_set_cells := fun _ _ => eq_refl
|}.

#[global] Instance ExampleStore_int : Mem ExampleStore int := {|
  cells := ints;
  set_cells := fun h m => mkExampleStore (strings m) h (user_cells m);
  cells_set_cells := fun _ _ => eq_refl
|}.

#[global] Instance ExampleStore_User : Mem ExampleStore example_test.User := {|
  cells := user_cells;
  set_cells := fun h m => mkExampleStore (strings m) (ints m) h;
  cells_set_cells := fun _ _ => eq_refl
|}.

(** [strconv.Atoi] on the ids the example's test passes: ["1"], ["999"]
    and ["abc"]. *)
Definition test_Atoi : Strconv errorString :=
  fun s =>
    if String.eqb s "1" then (1%Z, error_nil)
    else if String.eqb s "999" then (999%Z, error_nil)
    else (0%Z, error_val (errors_New "strconv.Atoi: invalid syntax")).

(** An Option holds [Some v] when it is present and its pointer reads
    [v], and [None] when it is absent. *)
Definition Option_holds {St T : Type} `{Mem St T} (w : World St)
    (o : jagain.Option T) (x : option T) : Prop :=
  match x with
  | Some v =>
      jagain.Option_IsSome o = true
      /\ fst (load (jagain.Option.value o) w) = Returned v
  | None => jagain.Option_IsSome o = false
  end.

(** * Properties *)

(** ** The runtime *)
Section Runtime.
Context {St T : Type} `{Mem St T}.

Lemma nth_error_fresh (h : list T) (v : T) :
  nth_error (h ++ [v]) (List.length h) = Some v.
Proof.
  rewrite nth_error_app2 by apply Nat.le_refl.
  now rewrite Nat.sub_diag.
Qed.

Lemma nth_error_older (h : list T) (v x : T) :
  nth_error ((h ++ [v]) ++ [x]) (List.length h) = Some v.
Proof.
  rewrite nth_error_app1.
  - apply nth_error_fresh.
  - rewrite length_app; cbn; lia.
Qed.

Lemma update_fresh (h : list T) (x v : T) :
  update (h ++ [x]) (List.length h) v = (h ++ [v])%list.
Proof.
  induction h as [|y h IH]; cbn; [reflexivity|].
  now rewrite IH.
Qed.

(** A cell just allocated holds the value it was allocated for. *)
Lemma load_new (v : T) (w : World St) :
  (p <- new v ;; load p) w = (Returned v, snd (new v w)).
Proof.
  unfold bind, new, load; cbn.
  now rewrite cells_set_cells, nth_error_fresh.
Qed.

Lemma new_returns (v : T) (w : World St) :
  fst (new v w) = Returned (addr (List.length (cells (mem w)))).
Proof. reflexivity. Qed.

Lemma new_calls (v : T) (w : World St) :
  calls (snd (new v w)) = calls w.
Proof. reflexivity. Qed.

Lemma load_pure (p : ptr T) (w : World St) :
  snd (load p w) = w.
Proof.
  unfold load. destruct p as [|l]; [reflexivity|].
  now destruct (nth_error (cells (mem w)) l).
Qed.

End Runtime.

(** Unfolds the package's functions down to the runtime's steps. *)
Ltac go_unfold :=
  unfold jagain.Some, jagain.Ok, jagain.None, jagain.Err, jagain.FromPtr,
    jagain.Option_ToPtr, jagain.Option_Unwrap, jagain.Option_UnwrapOr,
    jagain.Option_UnwrapOrElse, jagain.Option_Map, jagain.Option_FlatMap,
    jagain.Option_Match, jagain.Option_ToResult, jagain.Option_MarshalJSON,
    jagain.Option_UnmarshalJSON, jagain.Option_String,
    jagain.Option_IsSome, jagain.Option_IsNone,
    jagain.Result_Unwrap, jagain.Result_UnwrapOr, jagain.Result_UnwrapOrElse,
    jagain.Result_UnwrapErr, jagain.Result_Map, jagain.Result_MapErr,
    jagain.Result_FlatMap, jagain.Result_Match, jagain.Result_ToOption,
    jagain.Result_String, jagain.Result_IsOk, jagain.Result_IsErr,
    jagain.MapTo, jagain.FlatMapTo, jagain.MatchTo,
    json_Marshal_ptr, bind, ret, panic, invoke, new, load, store in *; cbn in *.

(** Rewrites the reads of cells that were just allocated. *)
Ltac go_fresh :=
  repeat (rewrite ?cells_set_cells, ?nth_error_fresh, ?update_fresh,
            ?nth_error_older; cbn).

(** Both at once, for goals that only allocate and read back. *)
Ltac go_run := go_unfold; go_fresh; try reflexivity.

(** ** The package's tests, replayed *)

Example TestOption_Map :
  fst ((o <- jagain.Some 42 ;; m <- jagain.Option_Map o (fun i => ret (i * 2)) ;;
        jagain.Option_Unwrap m) (start [])) = Returned 84.
Proof. reflexivity. Qed.

Example TestOption_FlatMap :
  fst ((o <- jagain.Some 42 ;;
        m <- jagain.Option_FlatMap o (fun i =>
               if (0 <? i)%nat then jagain.Some (i * 3) else ret jagain.None) ;;
        jagain.Option_Unwrap m) (start [])) = Returned 126.
Proof. reflexivity. Qed.

Example TestOption_String :
  fst ((o <- jagain.Some "hello" ;; jagain.Option_String o) (start []))
    = Returned "Some(hello)".
Proof. reflexivity. Qed.

Example TestResult_MapErr :
  fst ((r <- jagain.Result_MapErr (T:=nat)
               (jagain.Err (error_val (errors_New "test error")))
               (fun _ => ret (error_val (errors_New "new error"))) ;;
        jagain.Result_UnwrapErr r) (start (@nil nat)))
    = Returned (error_val (errors_New "new error")).
Proof. reflexivity. Qed.

Example TestResult_String :
  fst (jagain.Result_String (T:=string)
         (jagain.Err (error_val (errors_New "test error"))) (start []))
    = Returned "Err(test error)".
Proof. reflexivity. Qed.

Example TestResult_Unwrap_Err :
  fst (jagain.Result_Unwrap (T:=nat)
         (jagain.Err (error_val (errors_New "test error"))) (start []))
    = Panicked (AnyString "called unwrap on an error result: test error").
Proof. reflexivity. Qed.

(** A user without an email gives the failure, a user with one gives the
    email; users and strings live in cells of their own. *)
Example TestResultExample_no_email :
  let HU := left_Mem User string in
  let HS := right_Mem User string in
  fst ((u <- jagain.Ok (mkUser 2 jagain.None) ;; user_email u) (start ([], [])))
    = Returned (jagain.Err (error_val (errors_New "user has no email"))).
Proof. reflexivity. Qed.

Example TestResultExample_email :
  let HU := left_Mem User string in
  let HS := right_Mem User string in
  fst ((e <- jagain.Some "a@b.com" ;; u <- jagain.Ok (mkUser 1 e) ;;
        r <- user_email u ;; jagain.Result_Unwrap r) (start ([], [])))
    = Returned "a@b.com".
Proof. reflexivity. Qed.

(** ** Unwrapping *)
Section Unwrapping.
Context {St E T : Type} `{Mem St T} `{error_iface E}.

(** C1. [Some(v).Unwrap()] returns [v]; [None[T]().Unwrap()] panics, with
    [ErrNoValue], and so returns no value of [T] at all. *)
Theorem Option_Unwrap_spec (v : T) (w : World St) :
  (o <- jagain.Some v ;; jagain.Option_Unwrap o) w
    = (Returned v, snd (jagain.Some v w))
  /\ jagain.Option_Unwrap (jagain.None (T:=T)) w
    = (Panicked (AnyError jagain.ErrNoValue), w).
Proof.
  split.
  - go_unfold. now go_fresh.
  - reflexivity.
Qed.

(** C2. [Ok(v).Unwrap()] returns [v] and [Ok(v).UnwrapErr()] panics;
    [Err(e).UnwrapErr()] returns [e] and [Err(e).Unwrap()] panics with a
    message that ends in the rendering of [e]. *)
Theorem Result_Unwrap_spec (v : T) (e : error E) (w : World St) :
  let ok := jagain.Ok (E:=E) v in
  (r <- ok ;; jagain.Result_Unwrap r) w = (Returned v, snd (ok w))
  /\ (r <- ok ;; jagain.Result_UnwrapErr r) w
     = (Panicked (AnyString "called unwrap_err on an ok result"), snd (ok w))
  /\ jagain.Result_UnwrapErr (jagain.Err (T:=T) e) w = (Returned e, w)
  /\ jagain.Result_Unwrap (jagain.Err (T:=T) e) w
     = (Panicked (AnyString ("called unwrap on an error result: " ++ fmt_v e)), w).
Proof.
  cbv zeta. repeat split.
  go_unfold. now go_fresh.
Qed.

End Unwrapping.

(** ** Chaining and conversion *)
Section Chaining.
Context {St E T U : Type} `{Mem St T} `{Mem St U} `{error_iface E}.

(** C4. On [Err(e)], [FlatMap] returns the receiver and [FlatMapTo] a
    failure of the new type with the same error; in both cases the world
    is left as it was, whatever [f] is, so [f] was not called. On [Ok(v)]
    both are the call [f(v)]. *)
Theorem FlatMap_spec (v : T) (e : error E)
    (f : T -> M St (jagain.Result E T)) (g : T -> M St (jagain.Result E U))
    (w : World St) :
  jagain.Result_FlatMap (jagain.Err e) f w = (Returned (jagain.Err e), w)
  /\ jagain.FlatMapTo (jagain.Err e) g w = (Returned (jagain.Err e), w)
  /\ (r <- jagain.Ok v ;; jagain.Result_FlatMap r f) w
     = invoke f v (snd (jagain.Ok (E:=E) v w))
  /\ (r <- jagain.Ok v ;; jagain.FlatMapTo r g) w
     = invoke g v (snd (jagain.Ok (E:=E) v w)).
Proof.
  split; [reflexivity|]. split; [reflexivity|].
  split; now go_run.
Qed.

(** C5. [Some(v).ToResult(e)] is a success holding [v];
    [None().ToResult(e)] is a failure whose error is [e];
    [Ok(v).ToOption()] is present and holds [v]; [Err(e).ToOption()] is
    absent. *)
Theorem conversion_spec (v : T) (e : error E) (w : World St) :
  (o <- jagain.Some v ;; r <- jagain.Option_ToResult o e ;;
   x <- jagain.Result_Unwrap r ;; ret (jagain.Result_IsOk r, x)) w
    = (Returned (true, v),
       snd ((o <- jagain.Some v ;; jagain.Option_ToResult o e) w))
  /\ (r <- jagain.Option_ToResult (jagain.None (T:=T)) e ;;
      x <- jagain.Result_UnwrapErr r ;; ret (jagain.Result_IsErr r, x)) w
    = (Returned (true, e), w)
  /\ (r <- jagain.Ok (E:=E) v ;; o <- jagain.Result_ToOption r ;;
      x <- jagain.Option_Unwrap o ;; ret (jagain.Option_IsSome o, x)) w
    = (Returned (true, v),
       snd ((r <- jagain.Ok (E:=E) v ;; jagain.Result_ToOption r) w))
  /\ jagain.Result_ToOption (jagain.Err (T:=T) e) w = (Returned jagain.None, w)
  /\ jagain.Option_IsNone (jagain.None (T:=T)) = true.
Proof.
  split; [now go_run|]. split; [reflexivity|].
  split; [now go_run|]. split; reflexivity.
Qed.

(** C6. When the call [f(v)] returns [y], [Some(v).Map(f)] is present and
    holds [y]; [None().Map(f)] is [None()] and the world is left as it
    was, whatever [f] is, so [f] was not called. *)
Theorem Option_Map_spec (v : T) (f : T -> M St T) (w : World St) :
  (forall (y : T) (w' : World St),
     invoke f v (snd (jagain.Some v w)) = (Returned y, w') ->
     (o <- jagain.Some v ;; o' <- jagain.Option_Map o f ;;
      x <- jagain.Option_Unwrap o' ;; ret (jagain.Option_IsSome o', x)) w
       = (Returned (true, y), snd (jagain.Some y w')))
  /\ jagain.Option_Map jagain.None f w = (Returned jagain.None, w).
Proof.
  split; [|reflexivity].
  intros y w' Hf. go_unfold. go_fresh.
  rewrite Hf. now go_fresh.
Qed.

End Chaining.

(** ** The Result invariant *)
Section Invariant.
Context {St E : Type}.

Lemma success_carries_error {T : Type} (r : jagain.Result E T) :
  jagain.Result.valid r = true -> carries_error r.
Proof.
  unfold carries_error, jagain.Result_IsErr. intros ->. discriminate.
Qed.

(** What [Ok] returns is a success. *)
Lemma Ok_valid {T : Type} `{Mem St T} (v : T) (w w' : World St)
    (r : jagain.Result E T) :
  jagain.Ok v w = (Returned r, w') -> jagain.Result.valid r = true.
Proof.
  go_unfold. intros Heq. now inversion Heq.
Qed.

Lemma reachable_carries_error (T : Type) (r : jagain.Result E T) :
  reachable St T r -> carries_error r.
Proof.
  induction 1 as
    [ T HT v w w' r Hok
    | T x
    | T HT o x w w' r Hres
    | T HT r f w w' r' Hr IH Hmap
    | T U HT HU r f w w' r' Hr IH Hmap
    | T r f w w' r' Hr IH Hf Hmap
    | T HT r f w w' r' Hr IH Hf IHf Hmap
    | T U HT r f w w' r' Hr IH Hf IHf Hmap ].
  - eapply success_carries_error, Ok_valid, Hok.
  - intros _. discriminate.
  - unfold jagain.Option_ToResult in Hres.
    destruct (negb (jagain.Option.valid o)).
    + inversion Hres. intros _. discriminate.
    + unfold bind in Hres.
      destruct (load (jagain.Option.value o) w) as [[v|p] w1]; [|discriminate].
      eapply success_carries_error, Ok_valid, Hres.
  - unfold jagain.Result_Map in Hmap.
    destruct (negb (jagain.Result.valid r)).
    + inversion Hmap; subst. exact IH.
    + unfold bind in Hmap.
      destruct (load (jagain.Result.value r) w) as [[v|p] w1]; [|discriminate].
      destruct (invoke f v w1) as [[y|p] w2]; [|discriminate].
      eapply success_carries_error, Ok_valid, Hmap.
  - unfold jagain.MapTo in Hmap.
    destruct (negb (jagain.Result.valid r)) eqn:Hv.
    + inversion Hmap; subst. intros _. now apply IH.
    + unfold bind in Hmap.
      destruct (load (jagain.Result.value r) w) as [[v|p] w1]; [|discriminate].
      destruct (invoke f v w1) as [[y|p] w2]; [|discriminate].
      eapply success_carries_error, Ok_valid, Hmap.
  - unfold jagain.Result_MapErr in Hmap.
    destruct (jagain.Result.valid r) eqn:Hv.
    + inversion Hmap; subst. now apply success_carries_error.
    + unfold bind, invoke in Hmap.
      destruct (f (jagain.Result.err r) _) as [[e'|p] w1] eqn:Hcall; [|discriminate].
      inversion Hmap; subst. intros _. cbn. eapply Hf, Hcall.
  - unfold jagain.Result_FlatMap in Hmap.
    destruct (negb (jagain.Result.valid r)).
    + inversion Hmap; subst. exact IH.
    + unfold bind in Hmap.
      destruct (load (jagain.Result.value r) w) as [[v|p] w1]; [|discriminate].
      eapply IHf, Hmap.
  - unfold jagain.FlatMapTo in Hmap.
    destruct (negb (jagain.Result.valid r)) eqn:Hv.
    + inversion Hmap; subst. intros _. now apply IH.
    + unfold bind in Hmap.
      destruct (load (jagain.Result.value r) w) as [[v|p] w1]; [|discriminate].
      eapply IHf, Hmap.
Qed.

(** C3, as the code has it. Every Result is a success or a failure and
    never both. [Err(e)] is a failure that carries [e] itself, nil
    included. A Result built from the constructors and combinators with
    non-nil errors only carries, when it is a failure, a non-nil error. *)
Theorem Result_invariant (T : Type) (r : jagain.Result E T) (e : error E) :
  xorb (jagain.Result_IsOk r) (jagain.Result_IsErr r) = true
  /\ (jagain.Result_IsErr (jagain.Err (T:=T) e) = true
      /\ jagain.Result.err (jagain.Err (T:=T) e) = e)
  /\ (reachable St T r -> carries_error r).
Proof.
  split; [|split].
  - unfold jagain.Result_IsOk, jagain.Result_IsErr.
    now destruct (jagain.Result.valid r).
  - now split.
  - apply reachable_carries_error.
Qed.

End Invariant.

Lemma Result_invariant_witness :
  let r := jagain.Err (E:=errorString) (T:=nat) (error_val (errors_New "boom")) in
  reachable (list nat) nat r /\ carries_error r.
Proof.
  cbv zeta. split.
  - apply reach_Err.
  - apply (Result_invariant (St:=list nat) nat _ error_nil). apply reach_Err.
Defined.

(** C3 as stated fails: [Err[int](nil)] is accepted, and the failure it
    returns carries the nil error. *)
Lemma Err_nil_counterexample :
  let r := jagain.Err (E:=errorString) (T:=nat) error_nil in
  jagain.Result_IsErr r = true /\ jagain.Result.err r = error_nil /\ ~ carries_error r.
Proof.
  cbv zeta. split; [reflexivity|]. split; [reflexivity|].
  intros Hc. now apply Hc.
Qed.

(** ** Pointers *)
Section Pointers.
Context {St T : Type} `{Mem St T}.

(** C8. [FromPtr(nil)] is [None()]; for [p] pointing to [v], [FromPtr(p)]
    is present and holds [v]. [ToPtr] on [None()] is nil; on [Some(v)] it
    is a non-nil pointer to [v], and after [*q = v'] through it the
    Option still holds [v]. *)
Theorem pointer_bridge_spec (v v' : T) (p : ptr T) (w : World St) :
  jagain.FromPtr (T:=T) nil_ptr w = (Returned jagain.None, w)
  /\ (fst (load p w) = Returned v ->
      (o <- jagain.FromPtr p ;; x <- jagain.Option_Unwrap o ;;
       ret (jagain.Option_IsSome o, x)) w
        = (Returned (true, v), snd (jagain.FromPtr p w)))
  /\ jagain.Option_ToPtr (jagain.None (T:=T)) w = (Returned nil_ptr, w)
  /\ fst ((o <- jagain.Some v ;; q <- jagain.Option_ToPtr o ;;
           x0 <- load q ;; _ <- store q v' ;; x1 <- load q ;;
           x2 <- jagain.Option_Unwrap o ;;
           ret (is_nil q, x0, x1, x2)) w)
     = Returned (false, v, v', v).
Proof.
  split; [reflexivity|]. split; [|split; [reflexivity|]].
  - intros Hp. destruct p as [|l]; [discriminate|].
    go_unfold.
    destruct (nth_error (cells (mem w)) l) as [x|]; [|discriminate].
    cbn in *. inversion Hp; subst. now go_fresh.
  - go_unfold. now go_fresh.
Qed.

End Pointers.

Lemma pointer_bridge_witness :
  let w := mkWorld [7; 8] 0 in
  fst (load (addr 1) w) = Returned 8
  /\ (o <- jagain.FromPtr (addr 1) ;; x <- jagain.Option_Unwrap o ;;
      ret (jagain.Option_IsSome o, x)) w
     = (Returned (true, 8), snd (jagain.FromPtr (addr 1) w)).
Proof.
  cbv zeta. split; [reflexivity|].
  apply (pointer_bridge_spec (St:=list nat) 8 0 (addr 1) (mkWorld [7; 8] 0)).
  reflexivity.
Defined.

Lemma Option_Map_witness :
  let f := fun x : nat => ret (St:=list nat) (2 * x) in
  (o <- jagain.Some 21 ;; o' <- jagain.Option_Map o f ;;
   x <- jagain.Option_Unwrap o' ;; ret (jagain.Option_IsSome o', x)) (start [])
    = (Returned (true, 42), mkWorld [21; 42] 1).
Proof.
  cbv zeta.
  exact (proj1 (Option_Map_spec (St:=list nat) 21 (fun x => ret (2 * x)) (start []))
           42 (mkWorld [21] 1) eq_refl).
Defined.

(** ** The zero value and JSON *)
Section Serialization.
Context {St E T : Type} `{Mem St T} `{error_iface E} `{JSON E T}
  `{ZeroValue T} `{Fmt T}.

(** C9. [var o Option[T]] is [None[T]()], field for field, and every
    observer answers on it as on [None[T]()]. *)
Theorem Option_zero_spec (d : T) (w : World St) :
  let o : jagain.Option T := zero_value in
  o = jagain.None
  /\ jagain.Option_IsSome o = false
  /\ jagain.Option_IsNone o = true
  /\ jagain.Option_UnwrapOr o d w = (Returned d, w)
  /\ jagain.Option_Unwrap o w = (Panicked (AnyError jagain.ErrNoValue), w)
  /\ jagain.Option_String o w = (Returned "None", w)
  /\ jagain.Option_MarshalJSON (E:=E) o w
     = (Returned (list_byte_of_string "null", error_nil), w).
Proof.
  cbv zeta. repeat split.
Qed.

(** C10. When [data] is not null and [json.Unmarshal] rejects it with
    [e], [UnmarshalJSON] returns [e], the receiver still points to the
    Option it pointed to, and no cell has changed. *)
Theorem Option_UnmarshalJSON_error (o : jagain.Option T) (data : list byte)
    (x : T) (e : E) (w : World St) :
  String.eqb (string_of_list_byte data) "null" = false ->
  json_Unmarshal data zero_value = (x, error_val e) ->
  jagain.Option_UnmarshalJSON o data w = (Returned (o, error_val e), w).
Proof.
  intros Hnull Hdec. unfold jagain.Option_UnmarshalJSON.
  now rewrite Hnull, Hdec.
Qed.

(** C7, as the code has it. [Some(v)] marshals to what [json.Marshal]
    gives for the pointer to the cell of [v], which is what [v] marshals
    to when [T] is written the same way through a pointer; [None()]
    marshals to null, and null unmarshals to [None()]. When what
    [Some(v)] marshals to unmarshals back to [v] and is not null,
    unmarshaling it gives a present Option that holds [v]. *)
Theorem Option_JSON_roundtrip (v : T) (data : list byte) (o0 : jagain.Option T)
    (w : World St) :
  (o <- jagain.Some v ;; jagain.Option_MarshalJSON o) w
    = (Returned (json_Marshal_ref v), snd (jagain.Some v w))
  /\ (json_Marshal_ref (E:=E) v = json_Marshal v ->
      (o <- jagain.Some v ;; jagain.Option_MarshalJSON o) w
        = (Returned (json_Marshal v), snd (jagain.Some v w)))
  /\ jagain.Option_MarshalJSON (E:=E) (jagain.None (T:=T)) w
    = (Returned (list_byte_of_string "null", error_nil), w)
  /\ jagain.Option_UnmarshalJSON (E:=E) o0 (list_byte_of_string "null") w
    = (Returned (jagain.None, error_nil), w)
  /\ (json_Marshal_ref v = (data, error_nil) ->
      json_Unmarshal data zero_value = (v, error_nil) ->
      String.eqb (string_of_list_byte data) "null" = false ->
      fst ((o <- jagain.Some v ;; m <- jagain.Option_MarshalJSON o ;;
            r <- jagain.Option_UnmarshalJSON o0 (fst m) ;;
            x <- jagain.Option_Unwrap (fst r) ;;
            ret (m, jagain.Option_IsSome (fst r), x, snd r)) w)
        = Returned (data, error_nil, true, v, error_nil)).
Proof.
  split; [now go_run|].
  split; [intros <-; now go_run|].
  split; [reflexivity|]. split; [reflexivity|].
  intros Henc Hdec Hnull. go_unfold. go_fresh.
  rewrite Henc. cbn. unfold string_of_list_byte in Hnull.
  rewrite Hnull, Hdec. cbn. now go_fresh.
Qed.

End Serialization.

Lemma Option_UnmarshalJSON_error_witness :
  let data := list_byte_of_string "maybe" in
  let e := errors_New "cannot unmarshal into Tri" in
  String.eqb (string_of_list_byte data) "null" = false
  /\ json_Unmarshal data zero_value = (Unknown, error_val e)
  /\ jagain.Option_UnmarshalJSON (jagain.Option.mk (addr 0) true) data
       (mkWorld [Yes] 0)
     = (Returned (jagain.Option.mk (addr 0) true, error_val e), mkWorld [Yes] 0).
Proof.
  cbv zeta. split; [reflexivity|]. split; [reflexivity|].
  exact (Option_UnmarshalJSON_error (St:=list Tri)
           (jagain.Option.mk (addr 0) true) (list_byte_of_string "maybe")
           Unknown (errors_New "cannot unmarshal into Tri") (mkWorld [Yes] 0)
           eq_refl eq_refl).
Defined.

Lemma Option_JSON_roundtrip_witness :
  let data := list_byte_of_string "true" in
  json_Marshal_ref Yes = json_Marshal Yes
  /\ json_Marshal_ref Yes = (data, error_nil)
  /\ json_Unmarshal data zero_value = (Yes, error_nil)
  /\ String.eqb (string_of_list_byte data) "null" = false
  /\ (o <- jagain.Some Yes ;; jagain.Option_MarshalJSON o) (start [])
     = (Returned (json_Marshal Yes), mkWorld [Yes] 0)
  /\ fst ((o <- jagain.Some Yes ;; m <- jagain.Option_MarshalJSON o ;;
           r <- jagain.Option_UnmarshalJSON jagain.None (fst m) ;;
           x <- jagain.Option_Unwrap (fst r) ;;
           ret (m, jagain.Option_IsSome (fst r), x, snd r)) (start []))
     = Returned (data, error_nil, true, Yes, error_nil).
Proof.
  cbv zeta. do 4 (split; [reflexivity|]).
  pose proof (Option_JSON_roundtrip (St:=list Tri) (E:=errorString)
                Yes (list_byte_of_string "true") jagain.None (start []))
    as (_ & Hsame & _ & _ & Htrip).
  split.
  - exact (Hsame eq_refl).
  - exact (Htrip eq_refl eq_refl eq_refl).
Defined.

(** C7 as stated fails. [Tri] round-trips through its own encoding, and
    is written the same way through a pointer, yet [Some(Unknown)]
    marshals to null, and null unmarshals to [None()]. *)
Lemma Option_JSON_null_counterexample :
  (forall t : Tri,
     json_Marshal t = (fst (Tri_MarshalJSON t), error_nil)
     /\ json_Marshal_ref t = json_Marshal t
     /\ json_Unmarshal (fst (Tri_MarshalJSON t)) zero_value = (t, error_nil))
  /\ (o <- jagain.Some Unknown ;; r <- jagain.Option_MarshalJSON o ;;
      r' <- jagain.Option_UnmarshalJSON (E:=errorString) zero_value (fst r) ;;
      ret (jagain.Option_IsSome o, fst r, jagain.Option_IsSome (fst r'), snd r'))
       (start [])
     = (Returned (true, list_byte_of_string "null", false, error_nil),
        mkWorld [Unknown] 0).
Proof.
  split.
  - intros t. now destruct t.
  - reflexivity.
Qed.

(** ** Fallbacks *)
Section Fallbacks.
Context {St E T : Type} `{Mem St T} `{error_iface E}.

(** X1. On [Some(v)], [UnwrapOr] and [UnwrapOrElse] return [v] and leave
    the world as [Some] left it, whatever the fallback function is, so it
    was not called. On [None()], [UnwrapOr(d)] returns [d] and
    [UnwrapOrElse(f)] is the call [f()]. *)
Theorem Option_fallback_spec (v d : T) (f : unit -> M St T) (w : World St) :
  (o <- jagain.Some v ;; jagain.Option_UnwrapOr o d) w
    = (Returned v, snd (jagain.Some v w))
  /\ (o <- jagain.Some v ;; jagain.Option_UnwrapOrElse o f) w
    = (Returned v, snd (jagain.Some v w))
  /\ jagain.Option_UnwrapOr jagain.None d w = (Returned d, w)
  /\ jagain.Option_UnwrapOrElse jagain.None f w = invoke f tt w.
Proof.
  split; [now go_run|]. split; [now go_run|]. split; reflexivity.
Qed.

(** X2. On [Ok(v)], [UnwrapOr] and [UnwrapOrElse] return [v] without
    calling the fallback function. On [Err(e)], [UnwrapOr(d)] returns [d]
    and [UnwrapOrElse(f)] is the call [f(e)], on the error carried. *)
Theorem Result_fallback_spec (v d : T) (e : error E) (f : error E -> M St T)
    (w : World St) :
  let ok := jagain.Ok (E:=E) v in
  (r <- ok ;; jagain.Result_UnwrapOr r d) w = (Returned v, snd (ok w))
  /\ (r <- ok ;; jagain.Result_UnwrapOrElse r f) w = (Returned v, snd (ok w))
  /\ jagain.Result_UnwrapOr (jagain.Err e) d w = (Returned d, w)
  /\ jagain.Result_UnwrapOrElse (jagain.Err e) f w = invoke f e w.
Proof.
  cbv zeta.
  split; [now go_run|]. split; [now go_run|]. split; reflexivity.
Qed.

(** X3. The zero [Result], as in [var r Result[T]], is a failure whose
    error is nil: [UnwrapErr] returns nil, [Unwrap] panics naming
    [<nil>], [UnwrapOr(d)] returns [d] and [ToOption] is [None()]. *)
Theorem Result_zero_spec `{Fmt T} (d : T) (w : World St) :
  let r : jagain.Result E T := zero_value in
  r = jagain.Err error_nil
  /\ jagain.Result_IsOk r = false
  /\ jagain.Result_IsErr r = true
  /\ jagain.Result_UnwrapErr r w = (Returned error_nil, w)
  /\ jagain.Result_Unwrap r w
     = (Panicked (AnyString "called unwrap on an error result: <nil>"), w)
  /\ jagain.Result_UnwrapOr r d w = (Returned d, w)
  /\ jagain.Result_ToOption r w = (Returned jagain.None, w)
  /\ jagain.Result_String r w = (Returned "Err(<nil>)", w).
Proof.
  cbv zeta. repeat split.
Qed.

End Fallbacks.

(** ** Mapping *)
Section Mapping.
Context {St E T U : Type} `{Mem St T} `{Mem St U} `{error_iface E}.

(** X4. [Map] and [MapTo] hand a failure on, with its error and without
    calling [f]. On [Ok(v)], when the call [f(v)] returns [y] the result
    is a success that holds [y], and when it panics the panic goes
    through. *)
Theorem Result_Map_spec (v : T) (e : error E) (f : T -> M St T) (g : T -> M St U)
    (w : World St) :
  let w1 := snd (jagain.Ok (E:=E) v w) in
  jagain.Result_Map (jagain.Err e) f w = (Returned (jagain.Err e), w)
  /\ jagain.MapTo (jagain.Err e) g w = (Returned (jagain.Err e), w)
  /\ (forall (y : T) (w' : World St),
        invoke f v w1 = (Returned y, w') ->
        (r <- jagain.Ok (E:=E) v ;; r' <- jagain.Result_Map r f ;;
         x <- jagain.Result_Unwrap r' ;; ret (jagain.Result_IsOk r', x)) w
          = (Returned (true, y), snd (jagain.Ok (E:=E) y w')))
  /\ (forall (y : U) (w' : World St),
        invoke g v w1 = (Returned y, w') ->
        (r <- jagain.Ok (E:=E) v ;; r' <- jagain.MapTo r g ;;
         x <- jagain.Result_Unwrap r' ;; ret (jagain.Result_IsOk r', x)) w
          = (Returned (true, y), snd (jagain.Ok (E:=E) y w')))
  /\ (forall (p : any) (w' : World St),
        invoke f v w1 = (Panicked p, w') ->
        (r <- jagain.Ok (E:=E) v ;; jagain.Result_Map r f) w = (Panicked p, w')).
Proof.
  cbv zeta. split; [reflexivity|]. split; [reflexivity|].
  split; [|split]; intros y w' Hf; go_unfold; go_fresh;
    rewrite Hf; now go_fresh.
Qed.

(** X5. [MapErr] returns a success as it is, without calling [f]. On
    [Err(e)], when the call [f(e)] returns [e'] the result is a failure
    whose error is [e']. *)
Theorem Result_MapErr_spec (v : T) (e : error E) (f : error E -> M St (error E))
    (w : World St) :
  (r <- jagain.Ok v ;; jagain.Result_MapErr r f) w = jagain.Ok (E:=E) v w
  /\ (forall (e' : error E) (w' : World St),
        invoke f e w = (Returned e', w') ->
        jagain.Result_MapErr (T:=T) (jagain.Err e) f w
          = (Returned (jagain.Err e'), w')).
Proof.
  split; [now go_run|].
  intros e' w' Hf. go_unfold. now rewrite Hf.
Qed.

(** X6. [Map] is [FlatMap] with the constructor applied to what [f]
    returns, for Options and for Results, whatever the receiver is; and
    so is [MapTo] with [FlatMapTo]. *)
Theorem Map_as_FlatMap (o : jagain.Option T) (r : jagain.Result E T)
    (f : T -> M St T) (g : T -> M St U) (w : World St) :
  jagain.Option_Map o f w
    = jagain.Option_FlatMap o (fun x => y <- f x ;; jagain.Some y) w
  /\ jagain.Result_Map r f w
    = jagain.Result_FlatMap r (fun x => y <- f x ;; jagain.Ok y) w
  /\ jagain.MapTo r g w
    = jagain.FlatMapTo r (fun x => y <- g x ;; jagain.Ok y) w.
Proof.
  split; [|split].
  - unfold jagain.Option_Map, jagain.Option_FlatMap.
    destruct (negb (jagain.Option.valid o)); [reflexivity|].
    unfold bind. now destruct (load (jagain.Option.value o) w) as [[x|p] w1].
  - unfold jagain.Result_Map, jagain.Result_FlatMap.
    destruct (negb (jagain.Result.valid r)); [reflexivity|].
    unfold bind. now destruct (load (jagain.Result.value r) w) as [[x|p] w1].
  - unfold jagain.MapTo, jagain.FlatMapTo.
    destruct (negb (jagain.Result.valid r)); [reflexivity|].
    unfold bind. now destruct (load (jagain.Result.value r) w) as [[x|p] w1].
Qed.

(** X7. Whatever the receiver is, what [Map], [MapTo] and [MapErr] return
    is a success exactly when the receiver is one, and what
    [Option.Map] returns is present exactly when the receiver is. *)
Theorem Map_keeps_state (o : jagain.Option T) (r : jagain.Result E T)
    (f : T -> M St T) (g : T -> M St U) (fe : error E -> M St (error E))
    (w : World St) :
  (forall (r' : jagain.Result E T) (w' : World St),
     jagain.Result_Map r f w = (Returned r', w') ->
     jagain.Result_IsOk r' = jagain.Result_IsOk r)
  /\ (forall (r' : jagain.Result E U) (w' : World St),
     jagain.MapTo r g w = (Returned r', w') ->
     jagain.Result_IsOk r' = jagain.Result_IsOk r)
  /\ (forall (r' : jagain.Result E T) (w' : World St),
     jagain.Result_MapErr r fe w = (Returned r', w') ->
     jagain.Result_IsOk r' = jagain.Result_IsOk r)
  /\ (forall (o' : jagain.Option T) (w' : World St),
     jagain.Option_Map o f w = (Returned o', w') ->
     jagain.Option_IsSome o' = jagain.Option_IsSome o).
Proof.
  unfold jagain.Result_IsOk, jagain.Option_IsSome.
  split; [|split; [|split]]; intros r' w' Hrun.
  - unfold jagain.Result_Map in Hrun.
    destruct (jagain.Result.valid r) eqn:Hv; cbn in Hrun.
    + unfold bind in Hrun.
      destruct (load (jagain.Result.value r) w) as [[x|p] w1]; [|discriminate].
      destruct (invoke f x w1) as [[y|p] w2]; [|discriminate].
      go_unfold. now inversion Hrun.
    + unfold ret in Hrun. inversion Hrun; subst. exact Hv.
  - unfold jagain.MapTo in Hrun.
    destruct (jagain.Result.valid r) eqn:Hv; cbn in Hrun.
    + unfold bind in Hrun.
      destruct (load (jagain.Result.value r) w) as [[x|p] w1]; [|discriminate].
      destruct (invoke g x w1) as [[y|p] w2]; [|discriminate].
      go_unfold. now inversion Hrun.
    + unfold ret in Hrun. now inversion Hrun.
  - unfold jagain.Result_MapErr in Hrun.
    destruct (jagain.Result.valid r) eqn:Hv.
    + unfold ret in Hrun. inversion Hrun; subst. exact Hv.
    + unfold bind in Hrun.
      destruct (invoke fe (jagain.Result.err r) w) as [[y|p] w2]; [|discriminate].
      unfold ret in Hrun. now inversion Hrun.
  - unfold jagain.Option_Map in Hrun.
    destruct (jagain.Option.valid o) eqn:Hv; cbn in Hrun.
    + unfold bind in Hrun.
      destruct (load (jagain.Option.value o) w) as [[x|p] w1]; [|discriminate].
      destruct (invoke f x w1) as [[y|p] w2]; [|discriminate].
      go_unfold. now inversion Hrun.
    + unfold ret in Hrun. inversion Hrun; subst. exact Hv.
Qed.

End Mapping.

Lemma Result_Map_witness :
  let f := fun x : nat => ret (St:=list nat) (2 * x) in
  (r <- jagain.Ok (E:=errorString) 21 ;; r' <- jagain.Result_Map r f ;;
   x <- jagain.Result_Unwrap r' ;; ret (jagain.Result_IsOk r', x)) (start [])
    = (Returned (true, 42), mkWorld [21; 42] 1).
Proof.
  cbv zeta.
  exact (proj1 (proj2 (proj2
           (Result_Map_spec (St:=list nat) (E:=errorString) (U:=nat)
              21 error_nil (fun x => ret (2 * x)) (fun x => ret x) (start []))))
           42 (mkWorld [21] 1) eq_refl).
Defined.

Lemma Result_MapErr_witness :
  let e := error_val (errors_New "test error") in
  let e' := error_val (errors_New "new error") in
  jagain.Result_MapErr (T:=nat) (jagain.Err e) (fun _ => ret e') (start (@nil nat))
    = (Returned (jagain.Err e'), mkWorld [] 1).
Proof.
  cbv zeta.
  exact (proj2 (Result_MapErr_spec (St:=list nat) (T:=nat) 0
                  (error_val (errors_New "test error"))
                  (fun _ => ret (error_val (errors_New "new error"))) (start []))
           (error_val (errors_New "new error")) (mkWorld [] 1) eq_refl).
Defined.

Lemma Map_keeps_state_witness :
  let w : World (list nat) := mkWorld [21] 0 in
  let f := fun x : nat => ret (St:=list nat) (2 * x) in
  let g := fun x : nat => ret (St:=list nat) (x + 1) in
  let fe := fun _ : error errorString =>
              ret (St:=list nat) (error_val (errors_New "new error")) in
  let ok : jagain.Result errorString nat := jagain.Result.mk (addr 0) error_nil true in
  let failed : jagain.Result errorString nat :=
    jagain.Err (error_val (errors_New "test error")) in
  let some : jagain.Option nat := jagain.Option.mk (addr 0) true in
  (jagain.Result_Map ok f w
     = (Returned (jagain.Result.mk (addr 1) error_nil true), mkWorld [21; 42] 1)
   /\ jagain.Result_IsOk (jagain.Result.mk (E:=errorString) (T:=nat) (addr 1) error_nil true)
      = jagain.Result_IsOk ok)
  /\ (jagain.MapTo ok g w
      = (Returned (jagain.Result.mk (addr 1) error_nil true), mkWorld [21; 22] 1)
     /\ jagain.Result_IsOk (jagain.Result.mk (E:=errorString) (T:=nat) (addr 1) error_nil true)
        = jagain.Result_IsOk ok)
  /\ (jagain.Result_MapErr failed fe w
      = (Returned (jagain.Err (error_val (errors_New "new error"))), mkWorld [21] 1)
     /\ jagain.Result_IsOk
          (jagain.Err (E:=errorString) (T:=nat) (error_val (errors_New "new error")))
        = jagain.Result_IsOk failed)
  /\ (jagain.Option_Map some f w
      = (Returned (jagain.Option.mk (addr 1) true), mkWorld [21; 42] 1)
     /\ jagain.Option_IsSome (jagain.Option.mk (T:=nat) (addr 1) true)
        = jagain.Option_IsSome some).
Proof.
  cbv zeta.
  pose proof (Map_keeps_state (St:=list nat) (E:=errorString) (T:=nat) (U:=nat)
                (jagain.Option.mk (addr 0) true)
                (jagain.Result.mk (addr 0) error_nil true)
                (fun x => ret (2 * x)) (fun x => ret (x + 1))
                (fun _ => ret (error_val (errors_New "new error")))
                (mkWorld [21] 0)) as (Hmap & Hto & _ & Hopt).
  pose proof (Map_keeps_state (St:=list nat) (E:=errorString) (T:=nat) (U:=nat)
                (jagain.Option.mk (addr 0) true)
                (jagain.Err (error_val (errors_New "test error")))
                (fun x => ret (2 * x)) (fun x => ret (x + 1))
                (fun _ => ret (error_val (errors_New "new error")))
                (mkWorld [21] 0)) as (_ & _ & Herr & _).
  split; [split; [reflexivity | exact (Hmap _ _ eq_refl)]|].
  split; [split; [reflexivity | exact (Hto _ _ eq_refl)]|].
  split; [split; [reflexivity | exact (Herr _ _ eq_refl)]|].
  split; [reflexivity | exact (Hopt _ _ eq_refl)].
Defined.

(** ** FlatMap *)
Section Binding.
Context {St E T U V : Type} `{Mem St T} `{Mem St U} `{Mem St V} `{error_iface E}.

(** X8. [Option.FlatMap]: on [Some(v)] it is the call [f(v)]; on [None()]
    it returns [None()] without calling [f]; with [Some] for [f] the
    result is present and holds [v]; and two calls in a row are one call
    with the second made inside the function. *)
Theorem Option_FlatMap_laws (v : T) (o : jagain.Option T)
    (f g : T -> M St (jagain.Option T)) (w : World St) :
  (o1 <- jagain.Some v ;; jagain.Option_FlatMap o1 f) w
    = invoke f v (snd (jagain.Some v w))
  /\ jagain.Option_FlatMap jagain.None f w = (Returned jagain.None, w)
  /\ fst ((o1 <- jagain.Some v ;; o2 <- jagain.Option_FlatMap o1 jagain.Some ;;
          x <- jagain.Option_Unwrap o2 ;; ret (jagain.Option_IsSome o2, x)) w)
    = Returned (true, v)
  /\ (o1 <- jagain.Option_FlatMap o f ;; jagain.Option_FlatMap o1 g) w
    = jagain.Option_FlatMap o
        (fun x => o1 <- f x ;; jagain.Option_FlatMap o1 g) w.
Proof.
  split; [now go_run|]. split; [reflexivity|]. split; [now go_run|].
  unfold jagain.Option_FlatMap at 1 3.
  destruct (negb (jagain.Option.valid o)) eqn:Hv.
  - unfold bind, ret, jagain.Option_FlatMap. now rewrite Hv.
  - unfold bind. now destruct (load (jagain.Option.value o) w) as [[x|p] w1].
Qed.

(** X9. [Result.FlatMap] with [Ok] for [f] gives a success that holds the
    same value; two [FlatMap]s in a row are one [FlatMap] with the second
    made inside the function, and so are two [FlatMapTo]s across three
    types, whatever the receiver is. *)
Theorem Result_FlatMap_laws (v : T) (r : jagain.Result E T)
    (f g : T -> M St (jagain.Result E T))
    (h : T -> M St (jagain.Result E U)) (k : U -> M St (jagain.Result E V))
    (w : World St) :
  fst ((r1 <- jagain.Ok (E:=E) v ;; r2 <- jagain.Result_FlatMap r1 jagain.Ok ;;
        x <- jagain.Result_Unwrap r2 ;; ret (jagain.Result_IsOk r2, x)) w)
    = Returned (true, v)
  /\ (r1 <- jagain.Result_FlatMap r f ;; jagain.Result_FlatMap r1 g) w
    = jagain.Result_FlatMap r
        (fun x => r1 <- f x ;; jagain.Result_FlatMap r1 g) w
  /\ (r1 <- jagain.FlatMapTo r h ;; jagain.FlatMapTo r1 k) w
    = jagain.FlatMapTo r (fun x => r1 <- h x ;; jagain.FlatMapTo r1 k) w.
Proof.
  split; [now go_run|]. split.
  - unfold jagain.Result_FlatMap at 1 3.
    destruct (negb (jagain.Result.valid r)) eqn:Hv.
    + unfold bind, ret, jagain.Result_FlatMap. now rewrite Hv.
    + unfold bind. now destruct (load (jagain.Result.value r) w) as [[x|p] w1].
  - unfold jagain.FlatMapTo at 1 3.
    destruct (negb (jagain.Result.valid r)) eqn:Hv.
    + reflexivity.
    + unfold bind. now destruct (load (jagain.Result.value r) w) as [[x|p] w1].
Qed.

(** X10. A failure goes through a chain of [FlatMap]s of any length as it
    is, and [None()] through a chain of [Option.FlatMap]s: the world is
    left as it was, so none of the functions was called. *)
Theorem chain_short_circuit (e : error E)
    (fs : list (T -> M St (jagain.Result E T)))
    (gs : list (T -> M St (jagain.Option T))) (w : World St) :
  Result_chain (jagain.Err e) fs w = (Returned (jagain.Err e), w)
  /\ Option_chain jagain.None gs w = (Returned jagain.None, w).
Proof.
  split.
  - induction fs as [|f fs IH]; [reflexivity|].
    cbn [Result_chain]. unfold bind. cbn. exact IH.
  - induction gs as [|g gs IH]; [reflexivity|].
    cbn [Option_chain]. unfold bind. cbn. exact IH.
Qed.

(** X11. [Match] and [MatchTo] call one function only: on a present
    Option or a success the first, on the value held, and on an absent
    Option or a failure the second, on the error for a Result. *)
Theorem Match_spec (v : T) (e : error E)
    (some : T -> M St T) (none : unit -> M St T)
    (ok : T -> M St T) (err : error E -> M St T)
    (okU : T -> M St U) (errU : error E -> M St U) (w : World St) :
  (o <- jagain.Some v ;; jagain.Option_Match o some none) w
    = invoke some v (snd (jagain.Some v w))
  /\ jagain.Option_Match jagain.None some none w = invoke none tt w
  /\ (r <- jagain.Ok (E:=E) v ;; jagain.Result_Match r ok err) w
    = invoke ok v (snd (jagain.Ok (E:=E) v w))
  /\ jagain.Result_Match (jagain.Err e) ok err w = invoke err e w
  /\ (r <- jagain.Ok (E:=E) v ;; jagain.MatchTo r okU errU) w
    = invoke okU v (snd (jagain.Ok (E:=E) v w))
  /\ jagain.MatchTo (jagain.Err (T:=T) e) okU errU w = invoke errU e w.
Proof.
  split; [now go_run|]. split; [reflexivity|].
  split; [now go_run|]. split; [reflexivity|].
  split; [now go_run|]. reflexivity.
Qed.

End Binding.

(** ** The example store keeps its heaps apart *)

#[global] Instance ExampleStore_string_int : Apart ExampleStore string int.
Proof. split; reflexivity. Qed.

#[global] Instance ExampleStore_string_User :
  Apart ExampleStore string example_test.User.
Proof. split; reflexivity. Qed.

(** ** What the package leaves in the store *)
Section Frame.
Context {St E T : Type} `{Mem St T} `{error_iface E}.

Lemma load_calls (p : ptr T) (w : World St) (n : nat) :
  fst (load p (mkWorld (mem w) n)) = fst (load p w).
Proof.
  unfold load; cbn. destruct p as [|l]; [reflexivity|].
  now destruct (nth_error (cells (mem w)) l).
Qed.

Lemma load_addr (p : ptr T) (x : T) (w : World St) :
  fst (load p w) = Returned x <->
  exists l, p = addr l /\ nth_error (cells (mem w)) l = Some x.
Proof.
  unfold load. split.
  - destruct p as [|l]; [discriminate|].
    destruct (nth_error (cells (mem w)) l) as [y|] eqn:Hl; [|discriminate].
    cbn. intros Heq. inversion Heq; subst. now exists l.
  - intros (l & -> & Hl). now rewrite Hl.
Qed.

Lemma nth_error_update_other (h : list T) (l l' : nat) (v : T) :
  l <> l' -> nth_error (update h l v) l' = nth_error h l'.
Proof.
  revert l l'. induction h as [|y h IH]; intros l l' Hneq; [reflexivity|].
  destruct l as [|l], l' as [|l']; cbn; try reflexivity.
  - congruence.
  - apply IH. congruence.
Qed.

Lemma nth_error_update_same (h : list T) (l : nat) (v : T) :
  l < List.length h -> nth_error (update h l v) l = Some v.
Proof.
  revert l. induction h as [|y h IH]; intros l Hlt; cbn in *; [lia|].
  destruct l as [|l]; cbn; [reflexivity|].
  apply IH. lia.
Qed.

Lemma nth_error_old (h : list T) (l : nat) (x v : T) :
  nth_error h l = Some x -> nth_error (h ++ [v]) l = Some x.
Proof.
  intros Hl. rewrite nth_error_app1; [exact Hl|].
  apply nth_error_Some. congruence.
Qed.

Lemma keeps_ret {A : Type} (a : A) : keeps_cells (T:=T) (ret (St:=St) a).
Proof. now intros w p x Hp. Qed.

Lemma keeps_panic {A : Type} (q : any) : keeps_cells (T:=T) (panic (St:=St) (A:=A) q).
Proof. now intros w p x Hp. Qed.

Lemma keeps_load (q : ptr T) : keeps_cells (load q).
Proof.
  intros w p x Hp. unfold load at 2.
  destruct q as [|l]; [exact Hp|].
  now destruct (nth_error (cells (mem w)) l).
Qed.

Lemma keeps_new (v : T) : keeps_cells (new v).
Proof.
  intros w p x Hp. apply load_addr in Hp as (l & -> & Hl).
  apply load_addr. exists l. split; [reflexivity|].
  unfold new; cbn. rewrite cells_set_cells, nth_error_app1; [exact Hl|].
  apply nth_error_Some. congruence.
Qed.

Lemma keeps_bind {A B : Type} (c : M St A) (k : A -> M St B) :
  keeps_cells (T:=T) c -> (forall a, keeps_cells (T:=T) (k a)) ->
  keeps_cells (T:=T) (bind c k).
Proof.
  intros Hc Hk w p x Hp. unfold bind.
  specialize (Hc w p x Hp).
  destruct (c w) as [[a|q] w1]; cbn in *; [|exact Hc].
  now apply Hk.
Qed.

Lemma keeps_invoke {A B : Type} (f : A -> M St B) (a : A) :
  keeps_cells (T:=T) (f a) -> keeps_cells (T:=T) (invoke f a).
Proof.
  intros Hf w p x Hp. unfold invoke. apply Hf.
  now rewrite load_calls.
Qed.

Lemma keeps_Some (v : T) : keeps_cells (T:=T) (jagain.Some v).
Proof.
  unfold jagain.Some.
  apply keeps_bind; [apply keeps_new | intros q; apply keeps_ret].
Qed.

Lemma keeps_Ok (v : T) : keeps_cells (T:=T) (jagain.Ok (E:=E) v).
Proof.
  unfold jagain.Ok.
  apply keeps_bind; [apply keeps_new | intros q; apply keeps_ret].
Qed.

End Frame.

Create HintDb keeps.
#[global] Hint Resolve keeps_ret keeps_panic keeps_load keeps_new keeps_bind
  keeps_invoke keeps_Some keeps_Ok : keeps.


Section FrameSpec.
Context {St E T U : Type} `{Mem St T} `{Mem St U} `{!Apart St T U}
  `{error_iface E} `{JSON E T} `{Fmt T}.

Lemma keeps_json_Marshal_ptr (q : ptr T) :
  keeps_cells (T:=T) (json_Marshal_ptr (E:=E) q).
Proof.
  destruct q as [|l]; [apply keeps_ret|].
  change (keeps_cells (T:=T)
            (x <- load (addr l) ;; ret (json_Marshal_ref (E:=E) x))).
  auto with keeps.
Qed.

(** Allocating a cell of another type leaves the cells of [T]. *)
Lemma keeps_new_apart (y : U) : keeps_cells (T:=T) (new y).
Proof.
  intros w p x Hp. apply load_addr in Hp as (l & -> & Hl).
  apply load_addr. exists l. split; [reflexivity|].
  unfold new; cbn. now rewrite (cells_left (T:=T) (U:=U)).
Qed.

Lemma keeps_Ok_apart (y : U) : keeps_cells (T:=T) (jagain.Ok (E:=E) y).
Proof.
  unfold jagain.Ok.
  apply keeps_bind; [apply keeps_new_apart | intros q; apply keeps_ret].
Qed.

#[local] Hint Resolve keeps_json_Marshal_ptr keeps_new_apart keeps_Ok_apart : keeps.


End FrameSpec.


(** ** Conversions in a row, rendering, and pointers *)
Section Composition.
Context {St E T : Type} `{Mem St T} `{error_iface E} `{Fmt T}.

(** X13. [ToResult] then [ToOption] gives back a present Option holding
    the same value, or [None()]. [ToOption] then [ToResult(e')] gives back
    a success holding the same value, but for a failure the error is
    [e']: the error the Result carried is gone. *)
Theorem conversion_round_trips (v : T) (e e' : error E) (w : World St) :
  fst ((o <- jagain.Some v ;; r <- jagain.Option_ToResult o e ;;
        o' <- jagain.Result_ToOption r ;; x <- jagain.Option_Unwrap o' ;;
        ret (jagain.Option_IsSome o', x)) w)
    = Returned (true, v)
  /\ (r <- jagain.Option_ToResult (jagain.None (T:=T)) e ;;
      jagain.Result_ToOption r) w
    = (Returned jagain.None, w)
  /\ fst ((r <- jagain.Ok (E:=E) v ;; o <- jagain.Result_ToOption r ;;
          r' <- jagain.Option_ToResult o e' ;; x <- jagain.Result_Unwrap r' ;;
          ret (jagain.Result_IsOk r', x)) w)
    = Returned (true, v)
  /\ (o <- jagain.Result_ToOption (jagain.Err (T:=T) e) ;;
      r' <- jagain.Option_ToResult o e' ;; jagain.Result_UnwrapErr r') w
    = (Returned e', w).
Proof.
  split; [now go_run|]. split; [reflexivity|].
  split; [now go_run|]. reflexivity.
Qed.

(** X14. Rendering: [Some(v)] gives [Some(] the rendering of [v] [)] and
    [None()] gives [None]; [Ok(v)] gives [Ok(...)] and [Err(e)] gives
    [Err(...)] around the rendering of the error, [<nil>] for a nil one.
    None of them panics. *)
Theorem String_spec (v : T) (e : error E) (w : World St) :
  (o <- jagain.Some v ;; jagain.Option_String o) w
    = (Returned ("Some(" ++ fmt_v v ++ ")"), snd (jagain.Some v w))
  /\ jagain.Option_String (jagain.None (T:=T)) w = (Returned "None", w)
  /\ (r <- jagain.Ok (E:=E) v ;; jagain.Result_String r) w
    = (Returned ("Ok(" ++ fmt_v v ++ ")"), snd (jagain.Ok (E:=E) v w))
  /\ jagain.Result_String (jagain.Err (T:=T) e) w
    = (Returned ("Err(" ++ fmt_v e ++ ")"), w)
  /\ jagain.Result_String (jagain.Err (E:=E) (T:=T) error_nil) w
    = (Returned "Err(<nil>)", w).
Proof.
  split; [now go_run|]. split; [reflexivity|].
  split; [now go_run|]. split; reflexivity.
Qed.

(** X15. [FromPtr] copies: for [p] pointing to [v], after [*p = v']
    the Option that [FromPtr(p)] returned still holds [v]; and after a
    store through the pointer [ToPtr] returns, [p] still points to [v].
    [FromPtr] of what [ToPtr] returns holds what the Option held, and is
    [None()] for [None()]. *)
Theorem pointer_copies (v v' : T) (p : ptr T) (w : World St) :
  (fst (load p w) = Returned v ->
     fst ((o <- jagain.FromPtr p ;; _ <- store p v' ;; x0 <- load p ;;
           x1 <- jagain.Option_Unwrap o ;; ret (x0, x1)) w)
       = Returned (v', v)
     /\ fst ((o <- jagain.FromPtr p ;; q <- jagain.Option_ToPtr o ;;
              _ <- store q v' ;; x0 <- load p ;;
              x1 <- jagain.Option_Unwrap o ;; x2 <- load q ;;
              ret (x0, x1, x2)) w)
       = Returned (v, v, v'))
  /\ fst ((o <- jagain.Some v ;; q <- jagain.Option_ToPtr o ;;
          o' <- jagain.FromPtr q ;; x <- jagain.Option_Unwrap o' ;;
          ret (jagain.Option_IsSome o', x)) w)
    = Returned (true, v)
  /\ (q <- jagain.Option_ToPtr (jagain.None (T:=T)) ;; jagain.FromPtr q) w
    = (Returned jagain.None, w).
Proof.
  split; [|split; [now go_run | reflexivity]].
  intros Hp. apply load_addr in Hp as (l & -> & Hl).
  assert (Hlt : l < List.length (cells (mem w))).
  { apply nth_error_Some. congruence. }
  split.
  - go_unfold. rewrite Hl. cbn. go_fresh.
    rewrite (nth_error_old _ _ _ _ Hl). cbn. go_fresh.
    rewrite nth_error_update_same by (rewrite length_app; lia). cbn. go_fresh.
    rewrite nth_error_update_other by lia.
    now rewrite nth_error_fresh.
  - go_unfold. rewrite Hl. cbn. go_fresh.
    rewrite (nth_error_old _ _ _ _ (nth_error_old _ _ _ v Hl)).
    now go_fresh.
Qed.

End Composition.

Lemma pointer_copies_witness :
  let w := mkWorld [7; 8] 0 in
  fst (load (addr 1) w) = Returned 8
  /\ fst ((o <- jagain.FromPtr (addr 1) ;; _ <- store (addr 1) 5 ;;
          x0 <- load (addr 1) ;; x1 <- jagain.Option_Unwrap o ;;
          ret (x0, x1)) w)
     = Returned (5, 8).
Proof.
  cbv zeta. split; [reflexivity|].
  exact (proj1 (proj1 (pointer_copies (St:=list nat) 8 5 (addr 1)
                         (mkWorld [7; 8] 0)) eq_refl)).
Defined.

(** ** The two styles of error handling compared *)
Section ComparisonSpec.
Context {St X : Type} `{Mem St comparison.UserRecord} `{Mem St string}
  `{error_iface X}.

(** X16. [GetUserEmailByIDResult] and [GetUserEmailByID] agree on every
    database. For a missing id both fail, the second with the error of
    the first wrapped after [failed to get user: ]; for a user with an
    empty email both fail with [user has no email]; for any other user
    the first is a success holding the email the second returns; and
    where reading the user panics, both panic alike. *)
Theorem comparison_agrees (db : comparison.MockDatabase) (id : int) (w : World St) :
  let std := comparison.GetUserEmailByID (X:=X) db id w in
  let res := comparison.GetUserEmailByIDResult (X:=X) db id in
  match map_get (comparison.users db) id with
  | None =>
      let e := errorText ("user with ID " ++ fmt_d id ++ " not found") in
      std = (Returned (EmptyString, error_val
               (wrapError ("failed to get user: user with ID " ++ fmt_d id
                           ++ " not found") e)), w)
      /\ res w = (Returned (jagain.Err (error_val e)), w)
  | Some user =>
      match fst (load user w) with
      | Panicked q => fst std = Panicked q /\ fst (res w) = Panicked q
      | Returned u =>
          if String.eqb (comparison.Email u) EmptyString
          then fst std = Returned (EmptyString, error_val (errorText "user has no email"))
               /\ fst (res w)
                  = Returned (jagain.Err (error_val (errorText "user has no email")))
          else fst std = Returned (comparison.Email u, error_nil)
               /\ fst ((r <- res ;; x <- jagain.Result_Unwrap r ;;
                        ret (jagain.Result_IsOk r, x)) w)
                  = Returned (true, comparison.Email u)
      end
  end.
Proof.
  cbv zeta.
  unfold comparison.GetUserEmailByID, comparison.GetUserEmailByIDResult,
    comparison.GetUserByID, comparison.GetUserByIDResult.
  destruct (map_get (comparison.users db) id) as [user|]; [|split; reflexivity].
  destruct (load user w) as [[u|q] w1] eqn:Hload.
  - assert (Hw : w1 = w).
    { pose proof (load_pure user w) as Hp. now rewrite Hload in Hp. }
    subst w1. cbn [fst].
    unfold bind at 1. rewrite Hload.
    destruct (String.eqb (comparison.Email u) EmptyString) eqn:Hmail.
    + split; [reflexivity|].
      go_unfold. rewrite Hload. cbn. go_fresh. now rewrite Hmail.
    + split.
      * unfold bind, ret. rewrite Hload. cbn. now rewrite Hmail, Hload.
      * go_unfold. rewrite Hload. cbn. go_fresh. rewrite Hmail. cbn.
        now go_fresh.
  - cbn [fst]. split.
    + unfold bind. now rewrite Hload.
    + unfold bind. now rewrite Hload.
Qed.

(** X17. For an id whose entry is a nil pointer, [GetUserEmailByIDSafe]
    returns the error [user is nil], where [GetUserEmailByID] and
    [GetUserEmailByIDResult] panic on the nil dereference. For any other
    id [GetUserEmailByIDSafe] does what [GetUserEmailByID] does. *)
Theorem nil_user_spec (db : comparison.MockDatabase) (id : int) (w : World St) :
  (map_get (comparison.users db) id = Some nil_ptr ->
     comparison.GetUserEmailByIDSafe (X:=X) db id w
       = (Returned (EmptyString, error_val (errorText "user is nil")), w)
     /\ comparison.GetUserEmailByID (X:=X) db id w = (Panicked nil_dereference, w)
     /\ comparison.GetUserEmailByIDResult (X:=X) db id w
       = (Panicked nil_dereference, w))
  /\ (map_get (comparison.users db) id <> Some nil_ptr ->
     comparison.GetUserEmailByIDSafe (X:=X) db id w
       = comparison.GetUserEmailByID (X:=X) db id w).
Proof.
  unfold comparison.GetUserEmailByIDSafe, comparison.GetUserEmailByID,
    comparison.GetUserEmailByIDResult, comparison.GetUserByID,
    comparison.GetUserByIDResult.
  split.
  - intros ->. now repeat split.
  - intros Hnn.
    destruct (map_get (comparison.users db) id) as [[|l]|]; try reflexivity.
    now contradiction Hnn.
Qed.

End ComparisonSpec.

Lemma nil_user_witness :
  let db :=
    comparison.mkMockDatabase (map_set [(1%Z, addr 0); (2%Z, addr 1)] 3%Z nil_ptr) in
  let w : World (list comparison.UserRecord * list string) := start ([], []) in
  let HU := left_Mem comparison.UserRecord string in
  let HS := right_Mem comparison.UserRecord string in
  map_get (comparison.users db) 3%Z = Some nil_ptr
  /\ comparison.GetUserEmailByIDSafe (X:=errorString) db 3%Z w
     = (Returned (EmptyString, error_val (errorText "user is nil")), w).
Proof.
  cbv zeta. split; [reflexivity|].
  exact (proj1 (proj1
           (nil_user_spec (X:=errorString)
              (H:=left_Mem comparison.UserRecord string)
              (H0:=right_Mem comparison.UserRecord string)
              (comparison.mkMockDatabase
                 (map_set [(1%Z, addr 0); (2%Z, addr 1)] 3%Z nil_ptr))
              3%Z (start ([], [])))
           eq_refl)).
Defined.

Example TestComparison_email :
  let HU := left_Mem comparison.UserRecord string in
  let HS := right_Mem comparison.UserRecord string in
  fst ((db <- comparison.NewMockDatabase ;;
        r1 <- comparison.GetUserEmailByIDResult (X:=errorString) db 1%Z ;;
        email <- jagain.Result_Unwrap r1 ;;
        r2 <- comparison.GetUserEmailByIDResult (X:=errorString) db 2%Z ;;
        r3 <- comparison.GetUserEmailByIDResult (X:=errorString) db 999%Z ;;
        ret (email, fmt_v (jagain.Result.err r2), fmt_v (jagain.Result.err r3)))
         (start ([], [])))
    = Returned ("alice@example.com", "user has no email",
                "user with ID 999 not found").
Proof. reflexivity. Qed.

(** ** The Result example *)

Section ServiceSpec.
Context {St X : Type} `{Mem St string} `{Mem St int} `{Mem St example_test.User}
  `{error_iface X} `{Strconv X}.

(** X18. [ParseUserID] fails with the error of [strconv.Atoi] wrapped
    after [invalid user ID format: ] when the text is no number, and with
    [user ID must be positive] when the number is zero or less; otherwise
    it is a success holding the number. So a success always holds a
    positive id. *)
Theorem ParseUserID_spec (id : string) (w : World St) :
  match strconv_Atoi id with
  | (_, error_val e) =>
      result_example.ParseUserID id w
        = (Returned (jagain.Err (error_val
             (wrapError ("invalid user ID format: " ++ Error e) (extError e)))), w)
      /\ errors_Unwrap
           (error_val (wrapError ("invalid user ID format: " ++ Error e) (extError e)))
         = error_val (extError e)
  | (n, error_nil) =>
      if Z.leb n 0
      then result_example.ParseUserID id w
             = (Returned (jagain.Err (error_val (errorText "user ID must be positive"))), w)
      else (r <- result_example.ParseUserID id ;; x <- jagain.Result_Unwrap r ;;
            ret (jagain.Result_IsOk r, x)) w
             = (Returned (true, n), snd (result_example.ParseUserID id w))
  end
  /\ (forall (r : jagain.Result (goerr X) int) (w' : World St) (n : int),
        result_example.ParseUserID id w = (Returned r, w') ->
        fst (jagain.Result_Unwrap r w') = Returned n ->
        (0 < n)%Z).
Proof.
  unfold result_example.ParseUserID.
  destruct (strconv_Atoi id) as [n [|e]].
  - destruct (Z.leb n 0) eqn:Hn.
    + split; [reflexivity|].
      intros r w' m Hrun Hget. inversion Hrun; subst. discriminate.
    + split; [now go_run|].
      intros r w' m Hrun Hget. go_unfold. inversion Hrun; subst.
      cbn in Hget. revert Hget. go_fresh. intros Hget. inversion Hget; subst.
      apply Z.leb_gt in Hn. exact Hn.
  - split; [now split|].
    intros r w' m Hrun Hget. inversion Hrun; subst. discriminate.
Qed.

(** X19. [GetUserEmailByStringID] stops at the first step that fails: with
    the error of [ParseUserID] for a text that is no positive number,
    with [user with ID n not found] for an id the repository lacks, with
    [user has no email] for a user whose email is absent. For a user
    whose email is present it is a success holding that email. *)
Theorem GetUserEmailByStringID_spec
    `{!Apart St string int} `{!Apart St string example_test.User}
    (s : result_example.UserService) (id : string) (w : World St) :
  let run := result_example.GetUserEmailByStringID s id in
  match strconv_Atoi id with
  | (_, error_val e) =>
      run w = (Returned (jagain.Err (error_val
                 (fmt_Errorf_w "invalid user ID format: " (extError e)))), w)
  | (n, error_nil) =>
      if Z.leb n 0
      then run w = (Returned (jagain.Err (error_val
                      (errorText "user ID must be positive"))), w)
      else
        match map_get (result_example.users (result_example.repo s)) n with
        | None =>
            fst (run w) = Returned (jagain.Err (error_val
                            (errorText ("user with ID " ++ fmt_d n ++ " not found"))))
        | Some user =>
            let email := example_test.User.Email user in
            if jagain.Option_IsSome email
            then match fst (load (jagain.Option.value email) w) with
                 | Returned mail =>
                     fst ((r <- run ;; x <- jagain.Result_Unwrap r ;;
                           ret (jagain.Result_IsOk r, x)) w)
                       = Returned (true, mail)
                 | Panicked q => fst (run w) = Panicked q
                 end
            else fst (run w) = Returned (jagain.Err (error_val
                                 (errorText "user has no email")))
        end
  end.
Proof.
  cbv zeta.
  unfold result_example.GetUserEmailByStringID, result_example.ParseUserID.
  destruct (strconv_Atoi id) as [n [|e]]; [|reflexivity].
  destruct (Z.leb n 0) eqn:Hn; [reflexivity|].
  unfold result_example.FindUser.
  go_unfold. go_fresh.
  destruct (map_get (result_example.users (result_example.repo s)) n)
    as [user|]; [|reflexivity].
  cbn. go_fresh.
  destruct (jagain.Option.valid (example_test.User.Email user)); [|reflexivity].
  cbn.
  destruct (jagain.Option.value (example_test.User.Email user)) as [|l];
    [reflexivity|].
  cbn.
  rewrite (cells_left (T:=string) (U:=example_test.User)).
  rewrite (cells_left (T:=string) (U:=int)).
  destruct (nth_error (cells (mem w)) l) as [mail|]; [|reflexivity].
  cbn. now go_fresh.
Qed.

End ServiceSpec.

Lemma ParseUserID_witness :
  let w : World ExampleStore := start empty_store in
  let r : jagain.Result (goerr errorString) int :=
    jagain.Result.mk (addr 0) error_nil true in
  let w' := mkWorld (mkExampleStore [] [999%Z] []) 0 in
  result_example.ParseUserID (H3:=test_Atoi) "999" w = (Returned r, w')
  /\ fst (jagain.Result_Unwrap r w') = Returned 999%Z
  /\ (0 < 999)%Z.
Proof.
  cbv zeta. split; [reflexivity|]. split; [reflexivity|].
  exact (proj2 (ParseUserID_spec (St:=ExampleStore) (H3:=test_Atoi) "999"
                  (start empty_store))
           (jagain.Result.mk (addr 0) error_nil true)
           (mkWorld (mkExampleStore [] [999%Z] []) 0) 999%Z eq_refl eq_refl).
Defined.

Lemma GetUserEmailByStringID_witness :
  let w : World ExampleStore :=
    mkWorld (mkExampleStore ["john@example.com"; "jane@example.com"] [30%Z] []) 0 in
  let s :=
    result_example.NewUserService
      (result_example.mkUserRepository
         [(1%Z, example_test.User.mk 1%Z "John Doe"
                  (jagain.Option.mk (addr 0) true) (jagain.Option.mk (addr 0) true) []);
          (2%Z, example_test.User.mk 2%Z "Jane Smith"
                  (jagain.Option.mk (addr 1) true) jagain.None [])]) in
  fst (result_example.NewUserRepository (start empty_store))
    = Returned (result_example.repo s)
  /\ fst ((r <- result_example.GetUserEmailByStringID (H3:=test_Atoi) s "1" ;;
          x <- jagain.Result_Unwrap r ;; ret (jagain.Result_IsOk r, x)) w)
     = Returned (true, "john@example.com").
Proof.
  cbv zeta. split; [reflexivity|].
  exact (GetUserEmailByStringID_spec (St:=ExampleStore) (H3:=test_Atoi)
           (result_example.NewUserService
              (result_example.mkUserRepository
                 [(1%Z, example_test.User.mk 1%Z "John Doe"
                          (jagain.Option.mk (addr 0) true)
                          (jagain.Option.mk (addr 0) true) []);
                  (2%Z, example_test.User.mk 2%Z "Jane Smith"
                          (jagain.Option.mk (addr 1) true) jagain.None [])]))
           "1"
           (mkWorld (mkExampleStore ["john@example.com"; "jane@example.com"]
                       [30%Z] []) 0)).
Defined.

Example TestResultExample_service :
  fst ((repo <- result_example.NewUserRepository ;;
        let s := result_example.NewUserService repo in
        r1 <- result_example.GetUserEmailByStringID (H3:=test_Atoi) s "1" ;;
        email <- jagain.Result_Unwrap r1 ;;
        r2 <- result_example.GetUserEmailByStringID (H3:=test_Atoi) s "999" ;;
        r3 <- result_example.GetUserEmailByStringID (H3:=test_Atoi) s "abc" ;;
        r4 <- jagain.Result_MapErr r2 (fun err =>
                match err with
                | error_val e => ret (error_val (fmt_Errorf_w "while getting user email: " e))
                | error_nil => ret error_nil
                end) ;;
        ret (email, fmt_v (jagain.Result.err r2),
             errors_Unwrap (jagain.Result.err r3),
             fmt_v (jagain.Result.err r4))) (start empty_store))
    = Returned ("john@example.com", "user with ID 999 not found",
                error_val (extError (errors_New "strconv.Atoi: invalid syntax")),
                "while getting user email: user with ID 999 not found").
Proof. reflexivity. Qed.

(** ** The transfer object *)
Section DTOSpec.
Context {St : Type} `{Mem St string} `{Mem St int} `{!Apart St string int}.

(** Reads cells through the two heaps of the users' fields. *)
Ltac dto_run :=
  repeat (first [ rewrite cells_set_cells
                | rewrite (cells_left (T:=string) (U:=int))
                | rewrite (cells_right (T:=string) (U:=int))
                | rewrite nth_error_fresh
                | match goal with
                  | Hc : nth_error _ _ = Some _ |- _ => rewrite Hc
                  end ]; cbn).

(** X20. A user goes to its transfer object and back unchanged: the id,
    the name and the addresses are the same, and the email and the age
    are present with the value they had, or absent as they were. An
    absent field is a nil pointer in the transfer object, a present one a
    non-nil pointer. *)
Theorem DTO_round_trip (u : example_test.User) (w : World St)
    (email : option string) (age : option int) :
  Option_holds w (example_test.User.Email u) email ->
  Option_holds w (example_test.User.Age u) age ->
  exists (dto : example_test.UserDTO) (w1 : World St)
         (u' : example_test.User) (w2 : World St),
    example_test.User_ToDTO u w = (Returned dto, w1)
    /\ is_nil (example_test.UserDTO.Email dto)
       = jagain.Option_IsNone (example_test.User.Email u)
    /\ is_nil (example_test.UserDTO.Age dto)
       = jagain.Option_IsNone (example_test.User.Age u)
    /\ example_test.UserFromDTO dto w1 = (Returned u', w2)
    /\ example_test.User.ID u' = example_test.User.ID u
    /\ example_test.User.Name u' = example_test.User.Name u
    /\ example_test.User.Addresses u' = example_test.User.Addresses u
    /\ Option_holds w2 (example_test.User.Email u') email
    /\ Option_holds w2 (example_test.User.Age u') age.
Proof.
  destruct u as [id name [pe ve] [pa va] addrs]; cbn.
  unfold Option_holds, jagain.Option_IsSome, jagain.Option_IsNone; cbn.
  intros He Ha.
  destruct email as [e|]; [destruct He as [-> He];
    apply load_addr in He as (le & -> & He) | subst ve];
  (destruct age as [a|]; [destruct Ha as [-> Ha];
    apply load_addr in Ha as (la & -> & Ha) | subst va]);
  unfold example_test.User_ToDTO, example_test.UserFromDTO;
  do 4 eexists;
  (split; [go_unfold; dto_run; reflexivity|]);
  (split; [reflexivity|]); (split; [reflexivity|]);
  (split; [go_unfold; dto_run; reflexivity|]);
  cbn; do 3 (split; [reflexivity|]);
  split; try reflexivity; (split; [reflexivity|]);
  go_unfold; dto_run; reflexivity.
Qed.

End DTOSpec.

Lemma DTO_round_trip_witness :
  let w : World ExampleStore :=
    mkWorld (mkExampleStore ["john@example.com"] [] []) 0 in
  let u :=
    example_test.User.mk 1%Z "John Doe" (jagain.Option.mk (addr 0) true)
      jagain.None [] in
  Option_holds w (example_test.User.Email u) (Some "john@example.com")
  /\ Option_holds w (example_test.User.Age u) None
  /\ exists dto w1 u' w2,
       example_test.User_ToDTO u w = (Returned dto, w1)
       /\ is_nil (example_test.UserDTO.Email dto)
          = jagain.Option_IsNone (example_test.User.Email u)
       /\ is_nil (example_test.UserDTO.Age dto)
          = jagain.Option_IsNone (example_test.User.Age u)
       /\ example_test.UserFromDTO dto w1 = (Returned u', w2)
       /\ example_test.User.ID u' = example_test.User.ID u
       /\ example_test.User.Name u' = example_test.User.Name u
       /\ example_test.User.Addresses u' = example_test.User.Addresses u
       /\ Option_holds w2 (example_test.User.Email u') (Some "john@example.com")
       /\ Option_holds w2 (example_test.User.Age u') None.
Proof.
  cbv zeta. split; [split; reflexivity|]. split; [reflexivity|].
  exact (DTO_round_trip (St:=ExampleStore)
           (example_test.User.mk 1%Z "John Doe" (jagain.Option.mk (addr 0) true)
              jagain.None [])
           (mkWorld (mkExampleStore ["john@example.com"] [] []) 0)
           (Some "john@example.com") None (conj eq_refl eq_refl) eq_refl).
Defined.
